(** * state-machine-agent: the recursive-loop middleware and the interrupt helper

    A shallow embedding of [middleware.ts] ([stateClassificationMiddleware]:
    [modifyModelRequest], [afterModel]), of the tool catalogue of [tools.ts]
    and of the prompt loop of [runAgent] in [utils.ts]; further on, of
    [runAgent] as a whole over an agent that is a parameter, and of the tools
    [new_task], [ask_for_clarification], [attempt_completion], [read_file],
    [list_files] and [write_to_file] over a file system that is a parameter.

    JavaScript strings are modelled as [string]: a character of the model is
    one byte of the UTF-8 text.  Every needle and every pattern the code looks
    for is ASCII, and an ASCII byte never occurs inside the encoding of another
    character, so [includes] and the two regular expressions answer on the
    bytes what they answer on the characters.  Where the code counts or cuts
    ([length], [substring]) the model counts and cuts UTF-16 code units, and
    [trim] removes the white space of Unicode, both read off the bytes. *)

From Stdlib Require Import String Ascii List Bool Arith Lia Setoid.
From Stdlib Require Import NArith DecimalString Permutation.
Import ListNotations.
Open Scope string_scope.

(** ** JavaScript string and array primitives used by the sources *)

Module JS.

(** The double quote, for the patterns and results that contain one. *)
Definition dq : string := String (ascii_of_nat 34) EmptyString.

(** A string is truthy when it is not empty. *)
Definition truthy (s : string) : bool :=
  match s with
  | EmptyString => false
  | String _ _ => true
  end.

(** [s.includes(needle)]: [needle] occurs in [s] as a substring. *)
Fixpoint includes (s needle : string) : bool :=
  String.prefix needle s
  || match s with
     | EmptyString => false
     | String _ s' => includes s' needle
     end.

(** One letter of [s.toLowerCase()].  Only [A]..[Z] are mapped: the other
    case mappings of Unicode send characters outside ASCII to characters
    other than [y], and no character but [Y] is sent to [y]. *)
Definition lowerChar (c : ascii) : ascii :=
  let n := nat_of_ascii c in
  if ((65 <=? n) && (n <=? 90))%nat then ascii_of_nat (n + 32) else c.

Fixpoint toLowerCase (s : string) : string :=
  match s with
  | EmptyString => EmptyString
  | String c s' => String (lowerChar c) (toLowerCase s')
  end.

(** The string of the bytes [codes]. *)
Definition bytes (codes : list nat) : string :=
  string_of_list_ascii (map ascii_of_nat codes).

(** The characters that [trim] removes, each as the bytes of its UTF-8
    encoding: the white space of ECMAScript (TAB, VT, FF, the space, the
    no-break space U+00A0, the byte order mark U+FEFF and the other space
    separators of Unicode: U+1680, U+2000 to U+200A, U+202F, U+205F, U+3000)
    and its line terminators (LF, CR, U+2028 and U+2029). *)
Definition whiteSpace : list string :=
  [ bytes [9]; bytes [10]; bytes [11]; bytes [12]; bytes [13]; bytes [32];
    bytes [0xC2; 0xA0];
    bytes [0xE1; 0x9A; 0x80];
    bytes [0xE2; 0x80; 0x80]; bytes [0xE2; 0x80; 0x81];
    bytes [0xE2; 0x80; 0x82]; bytes [0xE2; 0x80; 0x83];
    bytes [0xE2; 0x80; 0x84]; bytes [0xE2; 0x80; 0x85];
    bytes [0xE2; 0x80; 0x86]; bytes [0xE2; 0x80; 0x87];
    bytes [0xE2; 0x80; 0x88]; bytes [0xE2; 0x80; 0x89];
    bytes [0xE2; 0x80; 0x8A];
    bytes [0xE2; 0x80; 0xA8]; bytes [0xE2; 0x80; 0xA9];
    bytes [0xE2; 0x80; 0xAF];
    bytes [0xE2; 0x81; 0x9F];
    bytes [0xE3; 0x80; 0x80];
    bytes [0xEF; 0xBB; 0xBF] ].

(** [s] without the prefix [p], when it starts with it. *)
Fixpoint dropPrefix (p s : string) : option string :=
  match p with
  | EmptyString => Some s
  | String a p' =>
      match s with
      | EmptyString => None
      | String b s' => if Ascii.eqb a b then dropPrefix p' s' else None
      end
  end.

(** [s] without the one of [candidates] it starts with. *)
Fixpoint dropOneOf (candidates : list string) (s : string) : option string :=
  match candidates with
  | [] => None
  | w :: candidates' =>
      match dropPrefix w s with
      | Some rest => Some rest
      | None => dropOneOf candidates' s
      end
  end.

(** [s] without the [candidates] at its start, one after the other.  Every
    round takes at least a byte away, so the length of [s] is fuel enough. *)
Fixpoint dropLeading (candidates : list string) (fuel : nat) (s : string)
    : string :=
  match fuel with
  | O => s
  | S fuel' =>
      match dropOneOf candidates s with
      | Some rest => dropLeading candidates fuel' rest
      | None => s
      end
  end.

Fixpoint reverse (s : string) : string :=
  match s with
  | EmptyString => EmptyString
  | String c s' => reverse s' ++ String c EmptyString
  end.

(** [s.trimStart()], [s.trimEnd()] and [s.trim()].  The first byte of an
    encoding never occurs inside another encoding, so the bytes of a white
    space character at either end of the text are that character. *)
Definition trimStart (s : string) : string :=
  dropLeading whiteSpace (String.length s) s.

Definition trimEnd (s : string) : string :=
  reverse (dropLeading (map reverse whiteSpace) (String.length s) (reverse s)).

Definition trim (s : string) : string := trimEnd (trimStart s).

(** The UTF-16 code units of the character that the byte [b] starts: one for
    a character of one, two or three bytes, two for a character of four bytes
    (a surrogate pair), and none for a byte that continues a character. *)
Definition units (b : ascii) : nat :=
  let n := nat_of_ascii b in
  if (n <? 128)%nat then 1
  else if (n <? 192)%nat then 0
  else if (n <? 240)%nat then 1
  else 2.

(** [s.length]: the number of UTF-16 code units of the text. *)
Fixpoint length16 (s : string) : nat :=
  match s with
  | EmptyString => 0
  | String b s' => units b + length16 s'
  end.

(** The byte of [s] at [position]; a byte that is missing, which UTF-8 text
    does not have inside a character, reads as a continuation byte without
    bits. *)
Definition byteAt (position : nat) (s : string) : nat :=
  match String.get position s with
  | Some b => nat_of_ascii b
  | None => 0x80
  end.

(** The high surrogate of the character of four bytes that starts with [b0]
    and goes on with [rest], as the three bytes that the generalized UTF-8
    has for a surrogate left alone.  The character is the code point of the
    21 bits in the four bytes; its high surrogate is 0xD800 plus the ten
    bits above the lowest ten of the code point less 0x10000. *)
Definition highSurrogate (b0 : ascii) (rest : string) : string :=
  let n0 := nat_of_ascii b0 in
  let n1 := byteAt 0 rest in
  let n2 := byteAt 1 rest in
  bytes [0xED;
         0xA0 + ((n0 mod 8) * 4 + (n1 mod 64) / 16 - 1) mod 16;
         0x80 + (n1 mod 16) * 4 + (n2 mod 64) / 16].

(** [s.substring(0, n)]: the first [n] code units of the text.  The bytes
    that continue a character go with it; a character of two code units of
    which only the first fits leaves its high surrogate. *)
Fixpoint substring16 (n : nat) (s : string) : string :=
  match s with
  | EmptyString => EmptyString
  | String b s' =>
      if (units b =? 0)%nat then String b (substring16 n s')
      else if (units b <=? n)%nat then String b (substring16 (n - units b) s')
      else if (n =? 0)%nat then EmptyString
      else highSurrogate b s'
  end.

(** [xs.at(-1)]: the last element, [undefined] on the empty array. *)
Fixpoint at_last {A : Type} (xs : list A) : option A :=
  match xs with
  | [] => None
  | [x] => Some x
  | _ :: xs' => at_last xs'
  end.

(** [xs.join(sep)]. *)
Fixpoint join (sep : string) (xs : list string) : string :=
  match xs with
  | [] => EmptyString
  | [x] => x
  | x :: xs' => x ++ sep ++ join sep xs'
  end.

(** A value interpolated in a template literal: [undefined] prints as the
    word. *)
Definition interpolate (v : option string) : string :=
  match v with
  | Some s => s
  | None => "undefined"
  end.

(** [util.format(template, ...args)] for string arguments: each [%s] of the
    template, from the left, is replaced by the next argument; a [%s] left
    without an argument stays, and arguments left over are appended after a
    space each. *)
Fixpoint format (template : string) (args : list string) : string :=
  match template with
  | EmptyString => String.concat EmptyString (map (fun a => " " ++ a) args)
  | String "%" (String "s" rest) =>
      match args with
      | a :: args' => a ++ format rest args'
      | [] => template
      end
  | String c rest => String c (format rest args)
  end.

End JS.

(** ** Regular expressions, as far as the two patterns of [afterModel] go *)

Module Regex.

(** Literal text, a greedy [c+] over a character class, concatenation and a
    capturing group.  The groups of the source patterns are not nested, so
    the order in which groups close is their numbering. *)
Inductive regex : Type :=
| Lit (text : string)
| Plus (cls : ascii -> bool)
| Cat (r1 r2 : regex)
| Group (r : regex).

(** The class [\d]. *)
Definition digit (c : ascii) : bool :=
  let n := nat_of_ascii c in ((48 <=? n) && (n <=? 57))%nat.

(** The negated class of the patterns: any character but the double quote. *)
Definition notQuote (c : ascii) : bool :=
  negb (nat_of_ascii c =? 34)%nat.

(** The text consumed between the input [s] and what is left of it. *)
Definition consumed (s rest : string) : string :=
  String.substring 0 (String.length s - String.length rest) s.

(** [c+] by backtracking: the longest run first, then shorter ones, each
    handed to the continuation [k]. *)
Fixpoint plusK {A : Type} (cls : ascii -> bool) (s : string)
    (k : string -> option A) : option A :=
  match s with
  | EmptyString => None
  | String c s' =>
      if cls c then
        match plusK cls s' k with
        | Some x => Some x
        | None => k s'
        end
      else None
  end.

(** Match [r] at the head of [s]; [caps] are the groups closed so far and
    [k] matches the rest of the pattern. *)
Fixpoint matchK {A : Type} (r : regex) (s : string) (caps : list string)
    (k : string -> list string -> option A) : option A :=
  match r with
  | Lit text =>
      if String.prefix text s
      then k (String.substring (String.length text)
                (String.length s - String.length text) s) caps
      else None
  | Plus cls => plusK cls s (fun rest => k rest caps)
  | Cat r1 r2 => matchK r1 s caps (fun rest caps' => matchK r2 rest caps' k)
  | Group r' =>
      matchK r' s caps (fun rest caps' => k rest (caps' ++ [consumed s rest])%list)
  end.

Definition matchHere (r : regex) (s : string) : option (list string) :=
  matchK r s [] (fun rest caps => Some (consumed s rest :: caps)).

(** [s.match(r)] without the [g] flag: the leftmost match, as the array of
    the whole match followed by the groups; [None] is [null]. *)
Fixpoint exec (r : regex) (s : string) : option (list string) :=
  match matchHere r s with
  | Some m => Some m
  | None =>
      match s with
      | EmptyString => None
      | String _ s' => exec r s'
      end
  end.

(** [m?.[i]] on the result of a match. *)
Definition group (m : option (list string)) (i : nat) : option string :=
  match m with
  | Some groups => nth_error groups i
  | None => None
  end.

End Regex.

Import JS Regex.

(** ** The tool catalogue ([tools.ts]) *)

Module Tools.

(** The four categories, as the section headings of [tools.ts] name them. *)
Inductive Category : Type := NEW_TASK | QUESTION | ACTION | COMPLETION.

(** The [name] of each tool with the heading it is declared under. *)
Definition catalog : list (string * Category) :=
  [ ("new_task", NEW_TASK);
    ("ask_for_clarification", QUESTION);
    ("read_file", ACTION);
    ("list_files", ACTION);
    ("search_files", ACTION);
    ("write_to_file", ACTION);
    ("attempt_completion", COMPLETION) ].

(** Modelled from the spec: [categoryOf], the classifier of section 4.2; the
    sources declare the tools by category and have no lookup function. *)
Fixpoint lookup (table : list (string * Category)) (identifier : string)
    : option Category :=
  match table with
  | [] => None
  | (n, c) :: table' => if n =? identifier then Some c else lookup table' identifier
  end.

Definition categoryOf (identifier : string) : option Category :=
  lookup catalog identifier.

(** The [label] of the interrupt each suspending tool raises. *)
Definition newTaskLabel : string := "❓ Is this task correct? (y/N): ".
Definition askForClarificationLabel : string := "❓ Please provide clarification: ".
Definition attemptCompletionLabel : string :=
  "❓ Are you satisfied with these results? (y/N): ".

End Tools.

Import Tools.

(** ** The prompt template ([prompts.ts]) *)

Definition classificationPromptTemplate : string :=
  "You are Cline, an intelligent coding agent that operates in a recursive loop.

CURRENT CONTEXT:
- Current task: %s
- Context history: %s

TOOL CATEGORIES (choose the appropriate type):

📋 NEW TASK TOOLS: Use when you need to define what needs to be done
- new_task: Define and confirm a new task with the user

🤔 QUESTION TOOLS: Use when you need clarification (WAIT for user input)
- ask_for_clarification: When stuck or need help
- confirm_action: Before risky operations

⚡ ACTION TOOLS: Use to gather context and do work (ALWAYS continue)
- read_file: Read specific files
- list_files: Explore directories  
- search_files: Find patterns/content
- write_to_file: Make changes

✅ COMPLETION TOOLS: Use to present results and check user satisfaction
- attempt_completion: Present results and ask if user is satisfied

RECURSIVE LOOP LOGIC:
1. Choose appropriate tool based on current situation
2. Tool result gets added to context
3. Loop continues with enriched context
4. Only attempt_completion can end the loop (if user is satisfied)

CRITICAL RULES:
- You MUST use a tool - no plain text responses allowed
- If task mentions a specific file (like " ++ dq ++ "a.ts" ++ dq ++ "), work ONLY with that file
- Try read_file with the exact filename first before searching broadly
- Don't get distracted by other files in search results
- Stay laser-focused on the current task
- Only call attempt_completion when you have actually completed meaningful work
- Don't call attempt_completion multiple times for the same task

%s
    
IMPORTANT: Make only ONE tool call at a time. Do not make multiple tool calls in parallel.".

(** ** The middleware ([middleware.ts]) *)

(** [stateSchema]: [contextHistory] is an array of strings, empty by default,
    and [currentTask] an optional string. *)
Record State : Type := mkState {
  contextHistory : list string;
  currentTask : option string
}.

(** A tool call of [runtime.toolCalls]: the tool's [name] and its [result],
    [undefined] ([None]) as long as there is none. *)
Record ToolCall : Type := mkToolCall {
  name : string;
  result : option string
}.

Record Runtime : Type := mkRuntime {
  toolCalls : list ToolCall
}.

Inductive ToolChoice : Type := auto | none | required.

(** The fields of the model request that [modifyModelRequest] overwrites; the
    tools are listed by name.  Every other field is copied by the spread and
    is left out. *)
Record ModelRequest : Type := mkModelRequest {
  tools : list string;
  systemPrompt : string;
  toolChoice : ToolChoice
}.

(** The object [afterModel] returns: a key that is absent is [None], a key
    that is present holds its value, [undefined] included. *)
Record StateUpdate : Type := mkStateUpdate {
  set_currentTask : option (option string);
  set_contextHistory : option (list string)
}.

(** [lastToolCall?.name] and [lastToolCall?.result]. *)
Definition nameOf (lastToolCall : option ToolCall) : option string :=
  option_map name lastToolCall.

Definition resultOf (lastToolCall : option ToolCall) : option string :=
  match lastToolCall with
  | Some call => result call
  | None => None
  end.

(** [lastToolCall?.name === identifier]. *)
Definition nameIs (lastToolCall : option ToolCall) (identifier : string) : bool :=
  match nameOf lastToolCall with
  | Some n => n =? identifier
  | None => false
  end.

(** The constant [isUserSatisfied] of [modifyModelRequest]: there is a history,
    the last tool call is an [attempt_completion], and its result, in lower
    case, includes the letter y. *)
Definition isUserSatisfied (state : State) (runtime : Runtime) : bool :=
  let currentHistory := contextHistory state in
  let lastToolCall := at_last (toolCalls runtime) in
  (0 <? List.length currentHistory)%nat
  && nameIs lastToolCall "attempt_completion"
  && match resultOf lastToolCall with
     | Some r => includes (toLowerCase r) "y"
     | None => false
     end.

(** The separator of the history in the prompt, as the text of [part_002] has
    it: between two spaces the three characters U+00E2, U+2020 and U+2019,
    which are the bytes of an arrow read in another encoding. *)
Definition historySeparator : string := " â†’ ".

Definition modifyModelRequest (request : ModelRequest) (state : State)
    (runtime : Runtime) : ModelRequest :=
  let currentHistory := contextHistory state in
  let currentTask := match currentTask state with
                     | Some t => if truthy t then Some t else None
                     | None => None
                     end in
  if isUserSatisfied state runtime then
    {| tools := [];
       systemPrompt := "Task has been completed successfully. No further actions needed.";
       toolChoice := none |}
  else
    let systemPrompt :=
      format classificationPromptTemplate
        [ match currentTask with Some t => t | None => "No active task" end;
          join historySeparator currentHistory;
          match currentTask with
          | Some t =>
              "FOCUS: You are working on " ++ dq ++ t ++ dq
              ++ ". If it mentions a specific file, work with that file directly!"
          | None => "START: Define a new task first"
          end ] in
    {| tools := tools request;
       systemPrompt := systemPrompt;
       toolChoice := required |}.

(** The two patterns of [afterModel]. *)
Definition taskPattern : regex :=
  Cat (Lit "NEW TASK CONFIRMED: ")
    (Cat (Group (Cat (Lit "task_") (Plus digit)))
      (Cat (Lit (" - " ++ dq))
        (Cat (Group (Plus notQuote)) (Lit dq)))).

Definition feedbackPattern : regex :=
  Cat (Lit ("TASK FEEDBACK: " ++ dq))
    (Cat (Group (Plus notQuote)) (Lit dq)).

(** The block of [afterModel] for a [new_task] call; [None] when it returns
    nothing and control goes on to the statements after it. *)
Definition afterModel_new_task (state : State) (result : string)
    : option StateUpdate :=
  if includes result "NEW TASK CONFIRMED:" then
    let taskMatch := exec taskPattern result in
    Some {| set_currentTask := Some (group taskMatch 2);
            set_contextHistory :=
              Some (List.app (contextHistory state)
                       ["Started task: " ++ interpolate (group taskMatch 2)]) |}
  else if includes result "TASK FEEDBACK:" then
    let feedbackMatch := exec feedbackPattern result in
    match feedbackMatch with
    | Some _ =>
        Some {| set_currentTask := None;
                set_contextHistory :=
                  Some (List.app (contextHistory state)
                           ["Task feedback: " ++ interpolate (group feedbackMatch 1)]) |}
    | None => None
    end
  else None.

Definition afterModel (state : State) (runtime : Runtime) : StateUpdate :=
  let lastToolCall := at_last (toolCalls runtime) in
  let result := match resultOf lastToolCall with
                | Some r => r
                | None => EmptyString
                end in
  match
    (if nameIs lastToolCall "new_task"
     then afterModel_new_task state result
     else None)
  with
  | Some update => update
  | None =>
      if nameIs lastToolCall "attempt_completion" && includes result "y" then
        {| set_currentTask := Some None;
           set_contextHistory := Some [] |}
      else
        let hasError :=
          includes result "Error:" || includes result "does not exist" in
        {| set_currentTask := None;
           set_contextHistory :=
             Some (List.app (contextHistory state)
                      [if hasError
                       then interpolate (nameOf lastToolCall) ++ ": encountered error"
                       else interpolate (nameOf lastToolCall) ++ ": completed successfully"]) |}
  end.

(** ** Outcomes, by the category of their tool *)

Definition outcome (identifier resultText : string) : ToolCall :=
  {| name := identifier; result := Some resultText |}.

Definition completion (resultText : string) : ToolCall :=
  outcome "attempt_completion" resultText.

Definition newTaskOutcome (resultText : string) : ToolCall :=
  outcome "new_task" resultText.

Definition runtimeOf (earlier : list ToolCall) (last : ToolCall) : Runtime :=
  {| toolCalls := List.app earlier [last] |}.

(** ** The loop around the middleware *)

Definition emptyState : State :=
  {| contextHistory := []; currentTask := None |}.

(** Modelled from the spec: how the agent runtime (the [createAgent] of the
    langchain package, which is not part of the sources) merges the object
    returned by [afterModel] into the session state: a key that is present
    replaces the field, a key that is absent leaves it as it was. *)
Definition applyUpdate (state : State) (update : StateUpdate) : State :=
  {| contextHistory := match set_contextHistory update with
                       | Some history => history
                       | None => contextHistory state
                       end;
     currentTask := match set_currentTask update with
                    | Some task => task
                    | None => currentTask state
                    end |}.

(** Modelled from the spec: [transition(priorState, outcome)] of section 4.3,
    the next state from [afterModel] and the directive from
    [modifyModelRequest], both on the prior state and on the runtime whose
    last tool call is the outcome. *)
Definition transition (request : ModelRequest) (prior : State)
    (runtime : Runtime) : State * ModelRequest :=
  (applyUpdate prior (afterModel prior runtime),
   modifyModelRequest request prior runtime).

(** The directive that ends the loop: no tool may be chosen any more. *)
Definition signalsTermination (directive : ModelRequest) : bool :=
  match toolChoice directive with
  | none => true
  | _ => false
  end.

Inductive Exit : Type := Completed | LoopBoundExceeded | AwaitingOutcome.

Record RunResult : Type := mkRunResult {
  exit : Exit;
  final : State;
  applied : list StateUpdate
}.

(** Modelled from the spec: the orchestrator loop of section 4.5, which is the
    agent graph of the langchain package.  [outcomes] are the action outcomes
    in the order they arrive, [earlier] the tool calls already in the runtime
    and [bound] the recursion limit.  Each iteration takes one outcome through
    [transition]; the loop returns when the directive signals termination, and
    fails when the bound is used up.  [applied] lists the updates made to the
    session state, oldest first. *)
Fixpoint run (bound : nat) (request : ModelRequest) (state : State)
    (earlier outcomes : list ToolCall) {struct outcomes} : RunResult :=
  match outcomes with
  | [] => {| exit := AwaitingOutcome; final := state; applied := [] |}
  | call :: later =>
      match bound with
      | O => {| exit := LoopBoundExceeded; final := state; applied := [] |}
      | S bound' =>
          let runtime := runtimeOf earlier call in
          let (next, directive) := transition request state runtime in
          if signalsTermination directive then
            {| exit := Completed; final := next;
               applied := [afterModel state runtime] |}
          else
            let rest := run bound' request next (List.app earlier [call]) later in
            {| exit := exit rest; final := final rest;
               applied := afterModel state runtime :: applied rest |}
      end
  end.

(** The state after a sequence of transition steps, whatever the directives. *)
Fixpoint evolve (state : State) (earlier outcomes : list ToolCall) : State :=
  match outcomes with
  | [] => state
  | call :: later =>
      let runtime := runtimeOf earlier call in
      evolve (applyUpdate state (afterModel state runtime))
        (List.app earlier [call]) later
  end.

(** ** The prompt loop of [runAgent] ([utils.ts]) *)

(** The [do ... while] loop that computes [response] for one interrupt whose
    label is [label].  [replies] are the lines the human enters, in order; the
    result is the response handed to [Command({ resume })] with the replies
    not read yet, or [None] while the loop still waits for a line. *)
Fixpoint response_loop (label : string) (replies : list string)
    : option (string * list string) :=
  match replies with
  | [] => None
  | response :: later =>
      if negb (truthy (trim response)) then
        if includes label "y/N" then Some ("N", later)
        else response_loop label later
      else Some (response, later)
  end.

(** ** The vocabulary of the properties *)

(** The character [c] occurs somewhere in [s]. *)
Definition Occurs (c : ascii) (s : string) : Prop :=
  exists pre post, s = pre ++ String c post.

(** The reply contains the letter y, in either case. *)
Definition ContainsYAnyCase (resultText : string) : Prop :=
  Occurs "y" resultText \/ Occurs "Y" resultText.

(** [needle] occurs in [s]. *)
Definition Substring (needle s : string) : Prop :=
  exists pre post, s = pre ++ needle ++ post.

(** A text that is a sequence of [candidates]. *)
Inductive SequenceOf (candidates : list string) : string -> Prop :=
| SequenceOf_empty : SequenceOf candidates EmptyString
| SequenceOf_more (w rest : string) :
    In w candidates -> SequenceOf candidates rest ->
    SequenceOf candidates (w ++ rest).

(** A reply made of white space only: a sequence of characters that [trim]
    removes; the empty reply is one. *)
Definition Blank (reply : string) : Prop := SequenceOf whiteSpace reply.

(** The update that clears the task and the history. *)
Definition resetUpdate : StateUpdate :=
  {| set_currentTask := Some None; set_contextHistory := Some [] |}.

(** The update of the last statement of [afterModel]. *)
Definition noteUpdate (state : State) (identifier resultText : string)
    : StateUpdate :=
  {| set_currentTask := None;
     set_contextHistory :=
       Some (List.app (contextHistory state)
               [if includes resultText "Error:"
                   || includes resultText "does not exist"
                then identifier ++ ": encountered error"
                else identifier ++ ": completed successfully"]) |}.

(** The outcomes that reach the last statement of [afterModel]: those of the
    ACTION and QUESTION tools, and those of [new_task] that neither branch of
    its block returns on. *)
Definition ReachesNote (identifier resultText : string) : Prop :=
  categoryOf identifier = Some ACTION
  \/ categoryOf identifier = Some QUESTION
  \/ (categoryOf identifier = Some NEW_TASK
      /\ ~ Substring "NEW TASK CONFIRMED:" resultText
      /\ exec feedbackPattern resultText = None).

Definition isSet (task : option string) : bool :=
  match task with
  | Some _ => true
  | None => false
  end.

(** The result of a call as [afterModel] reads it. *)
Definition resultTextOf (call : ToolCall) : string :=
  match result call with
  | Some r => r
  | None => EmptyString
  end.

(** The update clears the task and the history. *)
Definition isReset (update : StateUpdate) : bool :=
  match set_currentTask update, set_contextHistory update with
  | Some None, Some [] => true
  | _, _ => false
  end.

(** A [new_task] outcome whose result matches the whole confirmation
    pattern. *)
Definition confirmationAccepted (call : ToolCall) : bool :=
  (name call =? "new_task")
  && match exec taskPattern (resultTextOf call) with
     | Some _ => true
     | None => false
     end.

(** A [new_task] result that has the prefix of a confirmation and does not
    match the confirmation pattern. *)
Definition unmatchedConfirmation (call : ToolCall) : bool :=
  (name call =? "new_task")
  && includes (resultTextOf call) "NEW TASK CONFIRMED:"
  && match exec taskPattern (resultTextOf call) with
     | Some _ => false
     | None => true
     end.

(** The invariant of the data model, read as a flag that follows the session:
    a confirmation that is accepted raises it, a reset lowers it, and nothing
    else touches it.  [expected] is the flag before [outcomes]. *)
Fixpoint taskExpected (expected : bool) (state : State)
    (earlier outcomes : list ToolCall) : bool :=
  match outcomes with
  | [] => expected
  | call :: later =>
      let update := afterModel state (runtimeOf earlier call) in
      taskExpected
        (if isReset update then false
         else if confirmationAccepted call then true
         else expected)
        (applyUpdate state update) (List.app earlier [call]) later
  end.

(** ** Sample sessions *)

(** A session in the middle of a task, and the request of the demo agent. *)
Definition workingState : State :=
  {| contextHistory := ["Started task: fix bug"; "read_file: completed successfully"];
     currentTask := Some "fix bug" |}.

Definition demoRequest : ModelRequest :=
  {| tools := ["new_task"; "ask_for_clarification"; "read_file"; "list_files";
               "search_files"; "write_to_file"; "attempt_completion"];
     systemPrompt := "You are Cline";
     toolChoice := auto |}.

(** The confirmation and the feedback of the examples of the specification. *)
Definition confirmedFixBug : string :=
  "NEW TASK CONFIRMED: task_7 - " ++ dq ++ "fix bug" ++ dq.

Definition feedbackNotThatTask : string :=
  "TASK FEEDBACK: " ++ dq ++ "not that task" ++ dq.

(** A confirmation whose label is not quoted: the prefix is there, the full
    pattern is not. *)
Definition confirmedUnquoted : string :=
  "NEW TASK CONFIRMED: task_7 - fix bug".

(** A reply that is one no-break space, U+00A0. *)
Definition noBreakSpace : string := bytes [0xC2; 0xA0].

(** The result of [read_file] on a file that is missing. *)
Definition missingFile : string :=
  "Error: File " ++ dq ++ "a.ts" ++ dq ++ " does not exist.".

(** A task is confirmed, then a second confirmation comes unquoted. *)
Definition lostTaskSession : list ToolCall :=
  [newTaskOutcome confirmedFixBug; newTaskOutcome confirmedUnquoted].

(** A task is confirmed, worked on, discussed, and completed on the second
    attempt. *)
Definition roundTripSession : list ToolCall :=
  [ newTaskOutcome confirmedFixBug;
    outcome "read_file" missingFile;
    newTaskOutcome feedbackNotThatTask;
    completion "no";
    completion "yes";
    outcome "list_files" "No files found" ].

(** ** [runAgent] ([utils.ts]) *)

Module Agent.

(** The value of an interrupt: the [InterruptRequest] of [utils.ts]. *)
Record InterruptRequest : Type := mkInterruptRequest {
  type : string;
  label : string
}.

Record Interrupt : Type := mkInterrupt {
  value : InterruptRequest
}.

(** What [agent.invoke] resolves to: [__interrupt__] is absent ([None]) or the
    array of the pending interrupts; [output] stands for the other fields. *)
Record Result (Output : Type) : Type := mkResult {
  __interrupt__ : option (list Interrupt);
  output : Output
}.

Arguments mkResult {Output} _ _.
Arguments __interrupt__ {Output} _.
Arguments output {Output} _.

(** The first argument of [agent.invoke]: the messages, or the command that
    resumes the thread with the human's response. *)
Inductive Input (Messages : Type) : Type :=
| Invoke (messages : Messages)
| Resume (response : string).

Arguments Invoke {Messages} _.
Arguments Resume {Messages} _.

End Agent.

Import Agent.

Section RunAgent.

(** The agent is a parameter: [Agent] is the agent with the state of its
    thread, and [invoke] is [agent.invoke], which rejects with an [Error] or
    resolves to a result, leaving the agent in a new state. *)
Variable Agent : Type.
Variable Messages : Type.
Variable Output : Type.
Variable Error : Type.
Variable invoke : Agent -> Input Messages -> Error + (Agent * Result Output).

(** How a call of [runAgent] ends, with the inputs [agent.invoke] received,
    oldest first.  [Returned] carries the result and whether [rl.close()] ran;
    [Rejected] is a rejection of [agent.invoke], which [runAgent] does not
    catch; [TypeErrorThrown] is the read of [value] on an interrupt that is
    not there; [AwaitingReply] is an [rl.question] that no reply answers yet;
    [OutOfFuel] is the end of the model's fuel. *)
Inductive Outcome : Type :=
| Returned (result : Result Output) (closed : bool) (invoked : list (Input Messages))
| Rejected (error : Error) (invoked : list (Input Messages))
| TypeErrorThrown (invoked : list (Input Messages))
| AwaitingReply (label : string) (invoked : list (Input Messages))
| OutOfFuel.

(** The [while (result.__interrupt__)] loop.  [rl] says whether the readline
    interface exists, [replies] are the lines the human enters and [invoked]
    the inputs given to the agent so far.  An array is truthy even when it is
    empty, so the body runs on [Some []] and fails on its first element. *)
Fixpoint interrupt_loop (fuel : nat) (agent : Agent) (result : Result Output)
    (rl : bool) (replies : list string) (invoked : list (Input Messages))
    : Outcome :=
  match __interrupt__ result with
  | None => Returned result rl invoked
  | Some interrupts =>
      match fuel with
      | O => OutOfFuel
      | S fuel' =>
          match interrupts with
          | [] => TypeErrorThrown invoked
          | interruptRequest :: _ =>
              match response_loop (label (value interruptRequest)) replies with
              | None => AwaitingReply (label (value interruptRequest)) invoked
              | Some (response, later) =>
                  match invoke agent (Resume response) with
                  | inl error =>
                      Rejected error (List.app invoked [Resume response])
                  | inr (agent', result') =>
                      interrupt_loop fuel' agent' result' true later
                        (List.app invoked [Resume response])
                  end
              end
          end
      end
  end.

(** [runAgent(agent, messages, config)].  Each turn of the loop reads at least
    one reply, so one more unit of fuel than there are replies is enough. *)
Definition runAgent (agent : Agent) (messages : Messages)
    (replies : list string) : Outcome :=
  match invoke agent (Invoke messages) with
  | inl error => Rejected error [Invoke messages]
  | inr (agent', result) =>
      interrupt_loop (S (List.length replies)) agent' result false replies
        [Invoke messages]
  end.

(** The rest of a call of [runAgent] from the point where the thread is
    resumed with [response]: [agent.invoke(new Command({ resume: response }))]
    and the loop on its result, with [fuel] turns left. *)
Definition resumeWith (fuel : nat) (agent : Agent) (response : string)
    (later : list string) (invoked : list (Input Messages)) : Outcome :=
  match invoke agent (Resume response) with
  | inl error => Rejected error (List.app invoked [Resume response])
  | inr (agent', result') =>
      interrupt_loop fuel agent' result' true later
        (List.app invoked [Resume response])
  end.

(** The results that the agent gives to [inputs], one call of [agent.invoke]
    after the other, up to the first call that it rejects. *)
Fixpoint replay (agent : Agent) (inputs : list (Input Messages))
    : list (Result Output) :=
  match inputs with
  | [] => []
  | input :: later =>
      match invoke agent input with
      | inl _ => []
      | inr (agent', result) => result :: replay agent' later
      end
  end.

End RunAgent.

(** The response [response] answers the result [result]: the result has an
    interrupt pending, and the response, which is not blank, is one of the
    [replies] of the human, or it is the answer N that stands for a blank
    reply to a first interrupt whose label contains y/N. *)
Definition AnsweredBy {Output : Type} (replies : list string)
    (result : Result Output) (response : string) : Prop :=
  exists first others,
    __interrupt__ result = Some (first :: others)
    /\ ~ Blank response
    /\ (In response replies
        \/ (response = "N"
            /\ Substring "y/N" (label (value first))
            /\ exists reply, In reply replies /\ Blank reply)).

Arguments Returned {Messages Output Error} _ _ _.
Arguments Rejected {Messages Output Error} _ _.
Arguments TypeErrorThrown {Messages Output Error} _.
Arguments AwaitingReply {Messages Output Error} _ _.
Arguments OutOfFuel {Messages Output Error}.

(** A scripted agent for the examples: it interrupts with each label of its
    list in turn, then returns the responses it was resumed with. *)
Definition scriptedInvoke (agent : list string * list string)
    (input : Input unit)
    : unit + ((list string * list string) * Result (list string)) :=
  let (labels, heard) := agent in
  let heard' := match input with
                | Invoke _ => heard
                | Resume response => List.app heard [response]
                end in
  match labels with
  | [] => inr (([], heard'), mkResult None heard')
  | l :: labels' =>
      inr ((labels', heard'),
           mkResult
             (Some [mkInterrupt (mkInterruptRequest "interrupt" l)]) heard')
  end.

(** The inputs [agent.invoke] received in a call of [runAgent]. *)
Definition invocations {Messages Output Error : Type}
    (outcome : Outcome Messages Output Error) : list (Input Messages) :=
  match outcome with
  | Returned _ _ invoked => invoked
  | Rejected _ invoked => invoked
  | TypeErrorThrown invoked => invoked
  | AwaitingReply _ invoked => invoked
  | OutOfFuel => []
  end.


(** ** The tools ([tools.ts]) *)

Module Tool.

(** *** JavaScript primitives of the tools

    The length of a text and the cut of [substring] are in UTF-16 code units
    ([length16], [substring16]); [split], [startsWith], [endsWith] and
    [replace] look for ASCII text and work on the bytes. *)

(** [`${n}`] for a number that is a natural. *)
Definition decimal (n : nat) : string :=
  NilEmpty.string_of_uint (Nat.to_uint n).

(** The line feed that the template literals and [split] use. *)
Definition lf : ascii := ascii_of_nat 10.

(** [s.split(sep)] for a separator of one character: the pieces between the
    separators, one piece more than there are separators. *)
Fixpoint split (sep : ascii) (s : string) : list string :=
  match s with
  | EmptyString => [EmptyString]
  | String c s' =>
      if Ascii.eqb c sep then EmptyString :: split sep s'
      else match split sep s' with
           | [] => [String c EmptyString]
           | piece :: pieces => String c piece :: pieces
           end
  end.

(** [s.startsWith(p)] and [s.endsWith(p)]. *)
Definition startsWith (s p : string) : bool := String.prefix p s.

Fixpoint endsWith (s p : string) : bool :=
  (s =? p)
  || match s with
     | EmptyString => false
     | String _ s' => endsWith s' p
     end.

(** [pattern.replace(/\*/g, ".*")]: every star becomes a dot and a star. *)
Fixpoint replaceStars (pattern : string) : string :=
  match pattern with
  | EmptyString => EmptyString
  | String c rest =>
      if Ascii.eqb c "*" then String "." (String "*" (replaceStars rest))
      else String c (replaceStars rest)
  end.

(** *** The world of the tools *)

(** An error that is caught: its [code], absent on errors that are not from
    the file system, and its [message]. *)
Record JsError : Type := mkJsError {
  code : option string;
  message : string
}.

Inductive AccessMode : Type := F_OK | R_OK.

(** An entry of [fs.readdir(path, { withFileTypes: true })]. *)
Record Dirent : Type := mkDirent {
  dirent_name : string;
  isDirectory : bool
}.

(** What a tool does to the world, in order. *)
Inductive Event : Type :=
| ConsoleLog (text : string)
| FsAccess (path : string) (mode : AccessMode)
| FsReadFile (path : string)
| FsReaddir (path : string)
| FsMkdir (path : string)
| FsAppendFile (path content : string)
| FsCopyFile (source destination : string)
| FsWriteFile (path content : string).

(** How the world answers: the functions of [node:path], the outcome of each
    call of [node:fs/promises] ([None] and [inr] are success), [Date.now()], the
    sign of [a.localeCompare(b)], and [new RegExp(source)], which throws on a
    source that is no pattern and else gives the [test] of the pattern.  Within
    one call of a tool no call to the file system is made twice, so the
    outcomes need no state. *)
Record Env : Type := mkEnv {
  path_resolve : string -> string;
  path_dirname : string -> string;
  fs_access : string -> AccessMode -> option JsError;
  fs_readFile : string -> JsError + string;
  fs_readdir : string -> JsError + list Dirent;
  fs_mkdir : string -> option JsError;
  fs_appendFile : string -> string -> option JsError;
  fs_copyFile : string -> string -> option JsError;
  fs_writeFile : string -> string -> option JsError;
  Date_now : N;
  localeCompare : string -> string -> comparison;
  RegExp : string -> JsError + (string -> bool)
}.

(** A computation that may throw, with the events it caused up to there. *)
Definition M (A : Type) : Type := (list Event * (JsError + A))%type.

Definition ret {A : Type} (a : A) : M A := ([], inr a).

Definition bind {A B : Type} (m : M A) (k : A -> M B) : M B :=
  match m with
  | (events, inl error) => (events, inl error)
  | (events, inr a) =>
      let (events', outcome) := k a in (List.app events events', outcome)
  end.

Notation "x <- m ;; k" := (bind m (fun x => k))
  (at level 61, m at next level, right associativity).
Notation "m ;; k" := (bind m (fun _ => k))
  (at level 61, right associativity).

(** A call that resolves to nothing, and one that resolves to a value. *)
Definition perform (event : Event) (failure : option JsError) : M unit :=
  ([event], match failure with
            | Some error => inl error
            | None => inr tt
            end).

Definition request {A : Type} (event : Event) (answer : JsError + A) : M A :=
  ([event], answer).

Definition log (text : string) : M unit := ([ConsoleLog text], inr tt).

(** [try { ...; flag = true } catch {}]: whether the body went through. *)
Definition attempt (body : M unit) : M bool :=
  match body with
  | (events, inl _) => (events, inr false)
  | (events, inr _) => (events, inr true)
  end.

(** [try { return body } catch (error) { return handler(error) }] after the
    console lines [lines]: the events and the string the tool returns. *)
Definition tryCatch (lines : list string) (body : M string)
    (handler : JsError -> string) : list Event * string :=
  match body with
  | (events, inl error) =>
      (List.app (map ConsoleLog lines) events, handler error)
  | (events, inr text) => (List.app (map ConsoleLog lines) events, text)
  end.

(** [error.code === c]. *)
Definition codeIs (error : JsError) (c : string) : bool :=
  match code error with
  | Some c' => c' =? c
  | None => false
  end.

(** *** The tools that interrupt *)

(** Modelled from the spec: [interrupt] of the langgraph package, which
    suspends the tool and, once the thread is resumed, evaluates to the value
    it is resumed with (section 4.4).  [resume] is that value. *)
Definition interrupt (request : Agent.InterruptRequest) (resume : string)
    : string := resume.

Definition newTask (taskDescription reasoning resume : string)
    : list Event * string :=
  ([ConsoleLog (String lf "📋 NEW TASK IDENTIFIED:");
    ConsoleLog ("🎯 Task: " ++ taskDescription);
    ConsoleLog ("💭 Reasoning: " ++ reasoning)],
   interrupt (Agent.mkInterruptRequest "task_confirmation" newTaskLabel)
     resume).

Definition askForClarification (question context resume : string)
    : list Event * string :=
  ([ConsoleLog (String lf "🤔 QUESTION: " ++ question);
    ConsoleLog ("📝 Context: " ++ context)],
   interrupt
     (Agent.mkInterruptRequest "clarification" askForClarificationLabel)
     resume).


(** *** [read_file] *)

Definition truncationNotice (size : nat) : string :=
  String lf (String lf "... [File truncated - showing first 5000 characters of ")
  ++ decimal size ++ " total]".

(** The body of the [try] of [readFile]. *)
Definition readFile_try (env : Env) (filepath : string) : M string :=
  let fullPath := path_resolve env filepath in
  perform (FsAccess fullPath R_OK) (fs_access env fullPath R_OK) ;;
  content <- request (FsReadFile fullPath) (fs_readFile env fullPath) ;;
  let lines := List.length (split lf content) in
  let size := length16 content in
  let truncatedContent :=
    if (5000 <? length16 content)%nat
    then substring16 5000 content ++ truncationNotice size
    else content in
  ret ("File: " ++ filepath ++ " (" ++ decimal lines ++ " lines, "
       ++ decimal size ++ " characters)" ++ String lf truncatedContent).

Definition readFile (env : Env) (filepath : string) : list Event * string :=
  tryCatch ["📖 READING: " ++ filepath]
    (readFile_try env filepath)
    (fun error =>
       if codeIs error "ENOENT" then
         "Error: File " ++ dq ++ filepath ++ dq ++ " does not exist."
       else if codeIs error "EACCES" then
         "Error: Permission denied reading " ++ dq ++ filepath ++ dq ++ "."
       else
         "Error reading " ++ dq ++ filepath ++ dq ++ ": " ++ message error).

(** *** [list_files] *)

(** [files.sort(compare)]: the sort is stable, and for a comparison that
    orders the elements its result is the one a stable insertion gives. *)
Fixpoint insert (compare : string -> string -> comparison) (x : string)
    (sorted : list string) : list string :=
  match sorted with
  | [] => [x]
  | y :: sorted' =>
      match compare x y with
      | Gt => y :: insert compare x sorted'
      | _ => x :: sorted
      end
  end.

Fixpoint sort (compare : string -> string -> comparison)
    (files : list string) : list string :=
  match files with
  | [] => []
  | x :: files' => insert compare x (sort compare files')
  end.

(** The comparison of [listFiles]: directories first, then by
    [localeCompare]. *)
Definition compareFiles (env : Env) (a b : string) : comparison :=
  let aIsDir := endsWith a "/" in
  let bIsDir := endsWith b "/" in
  if aIsDir && negb bIsDir then Lt
  else if negb aIsDir && bIsDir then Gt
  else localeCompare env a b.

(** The pattern as the conditions read it: [undefined] and the empty string
    are falsy. *)
Definition given (pattern : option string) : option string :=
  match pattern with
  | Some p => if truthy p then Some p else None
  | None => None
  end.

(** The names of the entries, filtered by the pattern and sorted. *)
Definition listFiles_files (env : Env) (pattern : option string)
    (items : list Dirent) : M (list string) :=
  let files :=
    map (fun item =>
           let name := dirent_name item in
           if isDirectory item then name ++ "/" else name) items in
  files <-
    match given pattern with
    | Some p =>
        if includes p ".ts" || includes p "typescript" then
          ret (filter (fun file => endsWith file ".ts" || endsWith file ".tsx")
                 files)
        else if startsWith p "*" then
          match RegExp env (replaceStars p) with
          | inl error => ([], inl error)
          | inr test => ret (filter test files)
          end
        else ret (filter (fun file => includes file p) files)
    | None => ret files
    end ;;
  ret (sort (compareFiles env) files).

Definition listFiles_try (env : Env) (directory : string)
    (pattern : option string) : M string :=
  let fullPath := path_resolve env directory in
  perform (FsAccess fullPath R_OK) (fs_access env fullPath R_OK) ;;
  items <- request (FsReaddir fullPath) (fs_readdir env fullPath) ;;
  files <- listFiles_files env pattern items ;;
  if (List.length files =? 0)%nat then
    ret ("No files found in " ++ dq ++ directory ++ dq
         ++ match given pattern with
            | Some p => " matching pattern " ++ dq ++ p ++ dq
            | None => EmptyString
            end
         ++ ".")
  else
    ret ("Files in " ++ directory ++ " (" ++ decimal (List.length files)
         ++ " items):"
         ++ String lf
              (join (String lf EmptyString)
                 (map (fun file => "  " ++ file) files))).

Definition listFiles (env : Env) (directory : string)
    (pattern : option string) : list Event * string :=
  tryCatch
    ["📁 LISTING: " ++ directory ++ " (pattern: "
     ++ match given pattern with Some p => p | None => "all files" end
     ++ ")"]
    (listFiles_try env directory pattern)
    (fun error =>
       if codeIs error "ENOENT" then
         "Error: Directory " ++ dq ++ directory ++ dq ++ " does not exist."
       else if codeIs error "EACCES" then
         "Error: Permission denied accessing " ++ dq ++ directory ++ dq ++ "."
       else
         "Error listing " ++ dq ++ directory ++ dq ++ ": " ++ message error).

(** *** [write_to_file] *)

Inductive Mode : Type := overwrite | append.

Definition modeText (mode : Mode) : string :=
  match mode with
  | overwrite => "overwrite"
  | append => "append"
  end.

Definition backupPathOf (env : Env) (fullPath : string) : string :=
  fullPath ++ ".backup."
  ++ NilEmpty.string_of_uint (N.to_uint (Date_now env)).

(** The body of the [try] of [writeToFile]; [mode] is the parameter after its
    default. *)
Definition writeToFile_try (env : Env) (filepath content : string)
    (mode : Mode) : M string :=
  let fullPath := path_resolve env filepath in
  let dir := path_dirname env fullPath in
  perform (FsMkdir dir) (fs_mkdir env dir) ;;
  fileExists <-
    attempt (perform (FsAccess fullPath F_OK) (fs_access env fullPath F_OK)) ;;
  match mode with
  | append =>
      perform (FsAppendFile fullPath content)
        (fs_appendFile env fullPath content) ;;
      ret ("Successfully appended " ++ decimal (length16 content)
           ++ " characters to " ++ filepath)
  | overwrite =>
      (if fileExists : bool then
         let backupPath := backupPathOf env fullPath in
         perform (FsCopyFile fullPath backupPath)
           (fs_copyFile env fullPath backupPath) ;;
         log ("📋 Created backup: " ++ backupPath)
       else ret tt) ;;
      perform (FsWriteFile fullPath content)
        (fs_writeFile env fullPath content) ;;
      let action := if fileExists then "overwrote" else "created" in
      ret ("Successfully " ++ action ++ " " ++ filepath ++ " with "
           ++ decimal (length16 content) ++ " characters")
  end.

Definition writeToFile (env : Env) (filepath content : string)
    (mode : option Mode) : list Event * string :=
  let mode := match mode with
              | Some m => m
              | None => overwrite
              end in
  tryCatch
    ["✏️  WRITING: " ++ filepath ++ " (" ++ modeText mode ++ ")";
     "📝 Content preview: " ++ substring16 100 content
     ++ (if (100 <? length16 content)%nat then "..." else EmptyString)]
    (writeToFile_try env filepath content mode)
    (fun error =>
       if codeIs error "EACCES" then
         "Error: Permission denied writing to " ++ dq ++ filepath ++ dq ++ "."
       else
         "Error writing to " ++ dq ++ filepath ++ dq ++ ": " ++ message error).

End Tool.

(** ** The tools and the middleware together *)

(** The condition [hasError] of [afterModel]: the result contains one of the
    two markers. *)
Definition HasErrorMarker (resultText : string) : Prop :=
  Substring "Error:" resultText \/ Substring "does not exist" resultText.

(** The session after [afterModel] has taken the result of a tool. *)
Definition recorded (state : State) (earlier : list ToolCall)
    (identifier resultText : string) : State :=
  applyUpdate state
    (afterModel state (runtimeOf earlier (outcome identifier resultText))).

(** The session with one more entry in its history. *)
Definition withEntry (state : State) (entry : string) : State :=
  {| contextHistory := List.app (contextHistory state) [entry];
     currentTask := currentTask state |}.

(** The events of [writeToFile] that change a file that was there. *)
Definition isWriteFile (event : Tool.Event) : bool :=
  match event with
  | Tool.FsWriteFile _ _ => true
  | _ => false
  end.

Definition isCopyFile (event : Tool.Event) : bool :=
  match event with
  | Tool.FsCopyFile _ _ => true
  | _ => false
  end.

(** The name [listFiles] shows for an entry: a directory gets a slash. *)
Definition displayName (item : Tool.Dirent) : string :=
  if Tool.isDirectory item then Tool.dirent_name item ++ "/"
  else Tool.dirent_name item.

(** The names that end in a slash come first. *)
Definition DirectoriesFirst (files : list string) : Prop :=
  exists directories others,
    files = List.app directories others
    /\ Forall (fun file => Tool.endsWith file "/" = true) directories
    /\ Forall (fun file => Tool.endsWith file "/" = false) others.

(** The last character of a string. *)
Fixpoint lastChar (s : string) : option ascii :=
  match s with
  | EmptyString => None
  | String c EmptyString => Some c
  | String _ s' => lastChar s'
  end.

(** ** The prompt of [modifyModelRequest] *)

(** The task as the prompt names it: a task that is absent or empty is no
    task. *)
Definition taskInPrompt (state : State) : string :=
  match currentTask state with
  | Some (String c t) => String c t
  | _ => "No active task"
  end.

(** The hint that closes the prompt. *)
Definition hintInPrompt (state : State) : string :=
  match currentTask state with
  | Some (String c t) =>
      "FOCUS: You are working on " ++ dq ++ String c t ++ dq
      ++ ". If it mentions a specific file, work with that file directly!"
  | _ => "START: Define a new task first"
  end.

(** ** A sample world for the tools *)

Definition noEntry : Tool.JsError :=
  Tool.mkJsError (Some "ENOENT") "ENOENT: no such file or directory".

Definition isADirectory : Tool.JsError :=
  Tool.mkJsError (Some "EISDIR")
    "EISDIR: illegal operation on a directory, read".

Definition denied : Tool.JsError :=
  Tool.mkJsError (Some "EACCES") "EACCES: permission denied".

(** [s.repeat(n)]. *)
Fixpoint repeated (n : nat) (s : string) : string :=
  match n with
  | O => EmptyString
  | S n' => s ++ repeated n' s
  end.

(** A text of 2509 code units in 5010 bytes: 2501 letters of two bytes each,
    then eight ASCII characters with a marker. *)
Definition accentedText : string := repeated 2501 "é" ++ "Error: x".

(** A text of 5001 code units: 4999 ASCII letters and a face of four bytes,
    which is a surrogate pair. *)
Definition pairAtTheCut : string :=
  repeated 4999 "a" ++ bytes [0xF0; 0x9F; 0x98; 0x80].

(** A repository with the files a.ts, accented.ts and pair.ts, the directory
    src and the file locked.ts that may not be touched. *)
Definition sampleEnv : Tool.Env :=
  {| Tool.path_resolve := fun p => "/repo/" ++ p;
     Tool.path_dirname := fun _ => "/repo";
     Tool.fs_access := fun p _ =>
       if (p =? "/repo/a.ts") || (p =? "/repo/src") then None
       else if (p =? "/repo/accented.ts") || (p =? "/repo/pair.ts") then None
       else if p =? "/repo/locked.ts" then Some denied
       else Some noEntry;
     Tool.fs_readFile := fun p =>
       if p =? "/repo/a.ts" then inr "// prints Error: on failure"
       else if p =? "/repo/accented.ts" then inr accentedText
       else if p =? "/repo/pair.ts" then inr pairAtTheCut
       else if p =? "/repo/src" then inl isADirectory
       else inl noEntry;
     Tool.fs_readdir := fun p =>
       if p =? "/repo/src"
       then inr [Tool.mkDirent "index.ts" false; Tool.mkDirent "lib" true;
                 Tool.mkDirent "app.tsx" false; Tool.mkDirent "notes.md" false;
                 Tool.mkDirent "types.ts" true]
       else inl noEntry;
     Tool.fs_mkdir := fun _ => None;
     Tool.fs_appendFile := fun _ _ => None;
     Tool.fs_copyFile := fun _ _ => None;
     Tool.fs_writeFile := fun p _ =>
       if p =? "/repo/locked.ts" then Some denied else None;
     Tool.Date_now := 1700000000000%N;
     Tool.localeCompare := String.compare;
     Tool.RegExp := fun _ => inr (fun _ => true) |}.

(** [shown] is the text [content] up to a cut between two characters: the
    characters of [content] before the cut, whole, and after them, when the
    count of code units ends inside a surrogate pair, the high surrogate of
    that pair. *)
Definition CutOf (shown content : string) : Prop :=
  exists kept hidden,
    content = kept ++ hidden
    /\ (forall b rest, hidden = String b rest -> units b <> 0)
    /\ (shown = kept
        \/ exists b rest,
             hidden = String b rest /\ units b = 2
             /\ shown = kept ++ highSurrogate b rest).

(** How often the character [c] stands in [s]. *)
Fixpoint countChar (c : ascii) (s : string) : nat :=
  match s with
  | EmptyString => 0
  | String d s' => (if Ascii.eqb d c then 1 else 0) + countChar c s'
  end.

(** ** The earlier text of the middleware (the second text of [part_001]) *)

Module Earlier.

(** [isUserSatisfied] without the test on the history. *)
Definition isUserSatisfied (state : State) (runtime : Runtime) : bool :=
  let lastToolCall := at_last (toolCalls runtime) in
  nameIs lastToolCall "attempt_completion"
  && match resultOf lastToolCall with
     | Some r => includes (toLowerCase r) "y"
     | None => false
     end.

(** [afterModel]: the block for [new_task] is the same; the state is cleared
    when the last entry of the history, [lastAction], is the text
    attempt_completion. *)
Definition afterModel (state : State) (runtime : Runtime) : StateUpdate :=
  let lastToolCall := at_last (toolCalls runtime) in
  let result := match resultOf lastToolCall with
                | Some r => r
                | None => EmptyString
                end in
  let lastAction := at_last (contextHistory state) in
  match
    (if nameIs lastToolCall "new_task"
     then afterModel_new_task state result
     else None)
  with
  | Some update => update
  | None =>
      if match lastAction with
         | Some entry => entry =? "attempt_completion"
         | None => false
         end
      then
        {| set_currentTask := Some None;
           set_contextHistory := Some [] |}
      else
        let hasError :=
          includes result "Error:" || includes result "does not exist" in
        {| set_currentTask := None;
           set_contextHistory :=
             Some (List.app (contextHistory state)
                      [if hasError
                       then interpolate (nameOf lastToolCall) ++ ": encountered error"
                       else interpolate (nameOf lastToolCall) ++ ": completed successfully"]) |}
  end.

(** The state after a sequence of steps of this [afterModel]. *)
Fixpoint evolve (state : State) (earlier outcomes : list ToolCall) : State :=
  match outcomes with
  | [] => state
  | call :: later =>
      evolve (applyUpdate state (afterModel state (runtimeOf earlier call)))
        (List.app earlier [call]) later
  end.

End Earlier.

(** * Properties *)

(** ** The embedding on the examples of the sources *)

Example toLowerCase_mixed : toLowerCase "Why Not?" = "why not?".
Proof. reflexivity. Qed.

Example trim_both_ends : trim "  use src/index.ts  " = "use src/index.ts".
Proof. reflexivity. Qed.

(** A no-break space and a byte order mark before the text, a line separator
    and an ideographic space after it. *)
Example trim_unicode :
  trim (bytes [0xC2; 0xA0; 0xEF; 0xBB; 0xBF] ++ "a b"
        ++ bytes [0xE2; 0x80; 0xA8; 0xE3; 0x80; 0x80])
  = "a b".
Proof. reflexivity. Qed.

(** The zero width space U+200B is no white space. *)
Example trim_keeps_zero_width_space :
  trim (bytes [0xE2; 0x80; 0x8B]) = bytes [0xE2; 0x80; 0x8B].
Proof. reflexivity. Qed.

(** Seven code units in nine bytes: a letter of two bytes, an arrow of three,
    a face of four, which is a surrogate pair, and three ASCII letters. *)
Example length16_mixed :
  length16 (bytes [0xC3; 0xA9; 0xE2; 0x86; 0x92; 0xF0; 0x9F; 0x98; 0x80] ++ "abc")
  = 7.
Proof. reflexivity. Qed.

Example substring16_whole_characters :
  substring16 2 (bytes [0xC3; 0xA9; 0xE2; 0x86; 0x92; 0xF0; 0x9F; 0x98; 0x80])
  = bytes [0xC3; 0xA9; 0xE2; 0x86; 0x92].
Proof. reflexivity. Qed.

(** The text of 5010 bytes has 2509 code units and is shown whole. *)
Example accentedText_is_shown_whole :
  length16 accentedText = 2509
  /\ snd (Tool.readFile sampleEnv "accented.ts")
     = "File: accented.ts (1 lines, 2509 characters)"
       ++ String Tool.lf accentedText.
Proof. split; vm_compute; reflexivity. Qed.

(** The text with a pair at the cut is shown up to the high surrogate. *)
Example pairAtTheCut_is_cut_inside_the_pair :
  snd (Tool.readFile sampleEnv "pair.ts")
  = "File: pair.ts (1 lines, 5001 characters)"
    ++ String Tool.lf
         (repeated 4999 "a" ++ bytes [0xED; 0xA0; 0xBD]
          ++ Tool.truncationNotice (5000 + 1)).
Proof. vm_compute. reflexivity. Qed.

(** A cut inside a surrogate pair leaves the high surrogate, here U+D83D. *)
Example substring16_splits_a_pair :
  substring16 3 (bytes [0xC3; 0xA9; 0xE2; 0x86; 0x92; 0xF0; 0x9F; 0x98; 0x80])
  = bytes [0xC3; 0xA9; 0xE2; 0x86; 0x92; 0xED; 0xA0; 0xBD].
Proof. reflexivity. Qed.

Example format_three :
  format "task: %s, history: %s. %s" ["fix bug"; "a"; "FOCUS"]
  = "task: fix bug, history: a. FOCUS".
Proof. reflexivity. Qed.

Example join_history :
  join historySeparator ["Started task: fix bug"; "read_file: completed successfully"]
  = "Started task: fix bug â†’ read_file: completed successfully".
Proof. reflexivity. Qed.

(** The separator byte by byte: U+00E2 is C3 A2, U+2020 is E2 80 A0 and
    U+2019 is E2 80 99. *)
Example historySeparator_bytes :
  historySeparator
  = " " ++ bytes [0xC3; 0xA2; 0xE2; 0x80; 0xA0; 0xE2; 0x80; 0x99] ++ " ".
Proof. reflexivity. Qed.

Example exec_confirmation :
  exec taskPattern ("ok. " ++ confirmedFixBug ++ " noted")
  = Some [confirmedFixBug; "task_7"; "fix bug"].
Proof. reflexivity. Qed.

Example exec_feedback :
  exec feedbackPattern feedbackNotThatTask
  = Some [feedbackNotThatTask; "not that task"].
Proof. reflexivity. Qed.

Example exec_needs_digits :
  exec taskPattern ("NEW TASK CONFIRMED: task_x - " ++ dq ++ "fix bug" ++ dq)
  = None.
Proof. reflexivity. Qed.

Example categoryOf_tools :
  categoryOf "new_task" = Some NEW_TASK
  /\ categoryOf "ask_for_clarification" = Some QUESTION
  /\ categoryOf "write_to_file" = Some ACTION
  /\ categoryOf "attempt_completion" = Some COMPLETION
  /\ categoryOf "confirm_action" = None.
Proof. repeat split; reflexivity. Qed.

Example modifyModelRequest_working :
  let directive :=
    modifyModelRequest demoRequest workingState
      (runtimeOf [] (outcome "read_file" missingFile)) in
  toolChoice directive = required
  /\ tools directive = tools demoRequest
  /\ includes (systemPrompt directive) "- Current task: fix bug" = true
  /\ includes (systemPrompt directive)
       ("FOCUS: You are working on " ++ dq ++ "fix bug" ++ dq) = true
  /\ includes (systemPrompt directive) "%s" = false.
Proof. vm_compute. repeat split; reflexivity. Qed.

Example modifyModelRequest_fresh :
  let directive :=
    modifyModelRequest demoRequest emptyState {| toolCalls := [] |} in
  toolChoice directive = required
  /\ includes (systemPrompt directive) "- Current task: No active task" = true
  /\ includes (systemPrompt directive) "START: Define a new task first" = true.
Proof. vm_compute. repeat split; reflexivity. Qed.

(** ** Strings *)

Lemma Occurs_here (c : ascii) (s : string) : Occurs c (String c s).
Proof. exists EmptyString, s. reflexivity. Qed.

Lemma Occurs_later (c a : ascii) (s : string) :
  Occurs c s -> Occurs c (String a s).
Proof.
  intros (pre & post & ->). exists (String a pre), post. reflexivity.
Qed.

Lemma Occurs_inv (c a : ascii) (s : string) :
  Occurs c (String a s) -> a = c \/ Occurs c s.
Proof.
  intros (pre & post & E). destruct pre as [|b pre]; simpl in E.
  - left. congruence.
  - right. exists pre, post. congruence.
Qed.

Lemma Occurs_empty (c : ascii) : ~ Occurs c EmptyString.
Proof.
  intros (pre & post & E). destruct pre; discriminate E.
Qed.

Create HintDb occurs.

#[local] Hint Resolve Occurs_here Occurs_later : occurs.

Lemma includes_char (s : string) (c : ascii) :
  includes s (String c EmptyString) = true <-> Occurs c s.
Proof.
  induction s as [|a s IH]; simpl.
  - split; [discriminate | intros H; destruct (Occurs_empty _ H)].
  - destruct (ascii_dec c a) as [->|Hne]; simpl.
    + destruct s; split; auto with occurs.
    + rewrite IH. split; [auto with occurs|].
      intros H. destruct (Occurs_inv _ _ _ H); congruence.
Qed.

Lemma lowerChar_y (c : ascii) :
  lowerChar c = "y"%char <-> c = "y"%char \/ c = "Y"%char.
Proof.
  destruct c as [[] [] [] [] [] [] [] []]; vm_compute;
    split; intros H; try discriminate H; auto;
    destruct H as [H|H]; discriminate H.
Qed.

Lemma Occurs_toLowerCase_y (s : string) :
  Occurs "y" (toLowerCase s) <-> ContainsYAnyCase s.
Proof.
  unfold ContainsYAnyCase. induction s as [|a s IH]; simpl.
  - split.
    + intros H. destruct (Occurs_empty _ H).
    + intros [H|H]; destruct (Occurs_empty _ H).
  - split.
    + intros H. apply Occurs_inv in H. destruct H as [H|H].
      * apply lowerChar_y in H. destruct H as [->| ->]; auto with occurs.
      * apply IH in H. destruct H; auto with occurs.
    + intros [H|H]; apply Occurs_inv in H; destruct H as [->|H];
        auto using Occurs_here; apply Occurs_later, IH; auto.
Qed.

(** The test of the termination check on the reply. *)
Lemma includes_lower_y (resultText : string) :
  includes (toLowerCase resultText) "y" = true <-> ContainsYAnyCase resultText.
Proof.
  rewrite (includes_char (toLowerCase resultText) "y"%char).
  apply Occurs_toLowerCase_y.
Qed.

(** A reply that passes the raw test passes the test in lower case. *)
Lemma includes_y_lower (resultText : string) :
  includes resultText "y" = true -> includes (toLowerCase resultText) "y" = true.
Proof.
  intros H. apply includes_lower_y. left.
  apply (includes_char resultText "y"%char). exact H.
Qed.

(** ** The last tool call *)

Lemma at_last_snoc {A : Type} (xs : list A) (x : A) :
  at_last (List.app xs [x]) = Some x.
Proof.
  induction xs as [|y xs IH]; [reflexivity|].
  simpl. rewrite IH. destruct xs; reflexivity.
Qed.

Lemma lastToolCall_runtimeOf (earlier : list ToolCall) (call : ToolCall) :
  at_last (toolCalls (runtimeOf earlier call)) = Some call.
Proof. apply at_last_snoc. Qed.

(** ** The two hooks on the latest outcome *)

Lemma isUserSatisfied_completion (state : State) (earlier : list ToolCall)
    (resultText : string) :
  isUserSatisfied state (runtimeOf earlier (completion resultText))
  = (0 <? List.length (contextHistory state))%nat
    && includes (toLowerCase resultText) "y".
Proof.
  unfold isUserSatisfied. rewrite lastToolCall_runtimeOf. simpl.
  now rewrite andb_true_r.
Qed.

Lemma isUserSatisfied_inv (state : State) (runtime : Runtime) :
  isUserSatisfied state runtime = true ->
  contextHistory state <> []
  /\ exists resultText,
       at_last (toolCalls runtime) = Some (completion resultText)
       /\ ContainsYAnyCase resultText.
Proof.
  unfold isUserSatisfied, nameIs, nameOf, resultOf.
  destruct (at_last (toolCalls runtime)) as [[n [r|]]|]; simpl;
    rewrite ?andb_false_r; try discriminate.
  intros H. apply andb_prop in H as [H Hy]. apply andb_prop in H as [Hh Hn].
  split.
  - destruct (contextHistory state); [discriminate Hh | discriminate].
  - exists r. apply String.eqb_eq in Hn. subst n. split; [reflexivity|].
    now apply includes_lower_y.
Qed.

Lemma afterModel_completion (state : State) (earlier : list ToolCall)
    (resultText : string) :
  afterModel state (runtimeOf earlier (completion resultText))
  = if includes resultText "y" then resetUpdate
    else noteUpdate state "attempt_completion" resultText.
Proof.
  unfold afterModel. rewrite lastToolCall_runtimeOf. reflexivity.
Qed.

Lemma afterModel_new_task_call (state : State) (earlier : list ToolCall)
    (resultText : string) :
  afterModel state (runtimeOf earlier (newTaskOutcome resultText))
  = match afterModel_new_task state resultText with
    | Some update => update
    | None => noteUpdate state "new_task" resultText
    end.
Proof.
  unfold afterModel. rewrite lastToolCall_runtimeOf. reflexivity.
Qed.

Lemma afterModel_other (state : State) (earlier : list ToolCall)
    (identifier resultText : string) :
  (identifier =? "new_task") = false ->
  (identifier =? "attempt_completion") = false ->
  afterModel state (runtimeOf earlier (outcome identifier resultText))
  = noteUpdate state identifier resultText.
Proof.
  intros Hn Hc. unfold afterModel. rewrite lastToolCall_runtimeOf.
  unfold nameIs, nameOf. simpl. rewrite Hn, Hc. reflexivity.
Qed.

Lemma modifyModelRequest_toolChoice (request : ModelRequest) (state : State)
    (runtime : Runtime) :
  toolChoice (modifyModelRequest request state runtime)
  = if isUserSatisfied state runtime then none else required.
Proof.
  unfold modifyModelRequest. destruct (isUserSatisfied state runtime); reflexivity.
Qed.

Lemma signalsTermination_iff (request : ModelRequest) (state : State)
    (runtime : Runtime) :
  signalsTermination (modifyModelRequest request state runtime)
  = isUserSatisfied state runtime.
Proof.
  unfold signalsTermination. rewrite modifyModelRequest_toolChoice.
  destruct (isUserSatisfied state runtime); reflexivity.
Qed.

Lemma history_nonempty_ltb (state : State) :
  contextHistory state <> [] ->
  (0 <? List.length (contextHistory state))%nat = true.
Proof.
  destruct (contextHistory state); [congruence | reflexivity].
Qed.

(** ** The loop *)

Lemma run_step (bound : nat) (request : ModelRequest) (state : State)
    (earlier later : list ToolCall) (call : ToolCall) :
  run (S bound) request state earlier (call :: later)
  = let runtime := runtimeOf earlier call in
    let next := applyUpdate state (afterModel state runtime) in
    if isUserSatisfied state runtime then
      {| exit := Completed; final := next; applied := [afterModel state runtime] |}
    else
      let rest := run bound request next (List.app earlier [call]) later in
      {| exit := exit rest; final := final rest;
         applied := afterModel state runtime :: applied rest |}.
Proof.
  simpl. rewrite signalsTermination_iff. reflexivity.
Qed.

(** A run that completes has met a satisfied completion: some outcome of the
    sequence is an [attempt_completion] whose reply contains the letter y, in
    either case, and it arrived on a history that was not empty. *)
Lemma run_Completed_inv (request : ModelRequest) (outcomes : list ToolCall) :
  forall (bound : nat) (state : State) (earlier : list ToolCall),
  exit (run bound request state earlier outcomes) = Completed ->
  exists before resultText after,
    outcomes = List.app before (completion resultText :: after)
    /\ contextHistory (evolve state earlier before) <> []
    /\ ContainsYAnyCase resultText.
Proof.
  induction outcomes as [|call later IH]; intros bound state earlier.
  - simpl. discriminate.
  - destruct bound as [|bound]; [simpl; discriminate|].
    rewrite run_step. cbv zeta.
    destruct (isUserSatisfied state (runtimeOf earlier call)) eqn:Hs.
    + intros _. apply isUserSatisfied_inv in Hs.
      destruct Hs as (Hh & r & Hlast & Hy).
      rewrite lastToolCall_runtimeOf in Hlast. injection Hlast as Hcall.
      subst call.
      exists [], r, later. auto.
    + simpl. intros H. apply IH in H.
      destruct H as (before & r & after & -> & Hh & Hy).
      exists (call :: before), r, after. auto.
Qed.

(** C1. Whatever the session state, as long as its history is not empty, an
    [attempt_completion] outcome with the reply y makes [afterModel] return
    the update that clears the history and the task, the next state is the
    empty one, the directive takes every tool away, and the loop returns at
    this iteration with the reset as the one update it applied.  No other
    way ends the loop: the directive signals termination only on a satisfied
    completion, and a run that completes has met one. *)
Theorem C1_satisfied_completion_resets_once_and_terminates
    (bound : nat) (request : ModelRequest) (state : State)
    (earlier later : list ToolCall) :
  contextHistory state <> [] ->
  afterModel state (runtimeOf earlier (completion "y")) = resetUpdate
  /\ transition request state (runtimeOf earlier (completion "y"))
     = (emptyState,
        {| tools := [];
           systemPrompt :=
             "Task has been completed successfully. No further actions needed.";
           toolChoice := none |})
  /\ run (S bound) request state earlier (completion "y" :: later)
     = {| exit := Completed; final := emptyState; applied := [resetUpdate] |}
  /\ (forall state' runtime',
        signalsTermination (modifyModelRequest request state' runtime') = true ->
        contextHistory state' <> []
        /\ exists resultText,
             at_last (toolCalls runtime') = Some (completion resultText)
             /\ ContainsYAnyCase resultText)
  /\ (forall bound' state' earlier' outcomes',
        exit (run bound' request state' earlier' outcomes') = Completed ->
        exists before resultText after,
          outcomes' = List.app before (completion resultText :: after)
          /\ contextHistory (evolve state' earlier' before) <> []
          /\ ContainsYAnyCase resultText).
Proof.
  intros Hh.
  assert (Hs : isUserSatisfied state (runtimeOf earlier (completion "y")) = true).
  { rewrite isUserSatisfied_completion, history_nonempty_ltb by exact Hh.
    reflexivity. }
  assert (Ha : afterModel state (runtimeOf earlier (completion "y")) = resetUpdate).
  { rewrite afterModel_completion. reflexivity. }
  split; [exact Ha|]. split; [|split; [|split]].
  - unfold transition, modifyModelRequest. rewrite Ha, Hs. reflexivity.
  - rewrite run_step. cbv zeta. rewrite Hs, Ha. reflexivity.
  - intros state' runtime' H. rewrite signalsTermination_iff in H.
    now apply isUserSatisfied_inv.
  - intros bound' state' earlier' outcomes'. apply run_Completed_inv.
Qed.

Lemma workingState_history : contextHistory workingState <> [].
Proof. discriminate. Qed.

Lemma C1_witness :
  contextHistory workingState <> []
  /\ run 100 demoRequest workingState []
       [completion "y"; outcome "read_file" "File: a.ts"]
     = {| exit := Completed; final := emptyState; applied := [resetUpdate] |}.
Proof.
  split; [exact workingState_history|].
  exact (proj1 (proj2 (proj2
    (C1_satisfied_completion_resets_once_and_terminates
       99 demoRequest workingState [] [outcome "read_file" "File: a.ts"]
       workingState_history)))).
Defined.

(** C2. An [attempt_completion] outcome satisfies the user exactly when the
    history is not empty and the reply contains the letter y in either case,
    anywhere.  So the replies yes, why not and maybe are affirmative, the
    reply N is not, and no reply without the letter is. *)
Theorem C2_affirmative_iff_reply_contains_y_in_any_case
    (state : State) (earlier : list ToolCall) (resultText : string) :
  (isUserSatisfied state (runtimeOf earlier (completion resultText)) = true
   <-> contextHistory state <> [] /\ ContainsYAnyCase resultText)
  /\ (contextHistory state <> [] ->
      isUserSatisfied state (runtimeOf earlier (completion "yes")) = true
      /\ isUserSatisfied state (runtimeOf earlier (completion "why not")) = true
      /\ isUserSatisfied state (runtimeOf earlier (completion "maybe")) = true)
  /\ isUserSatisfied state (runtimeOf earlier (completion "N")) = false
  /\ (~ ContainsYAnyCase resultText ->
      isUserSatisfied state (runtimeOf earlier (completion resultText)) = false).
Proof.
  assert (Hiff : isUserSatisfied state (runtimeOf earlier (completion resultText)) = true
                 <-> contextHistory state <> [] /\ ContainsYAnyCase resultText).
  { rewrite isUserSatisfied_completion, andb_true_iff, includes_lower_y.
    split; intros [Hh Hy]; split; auto.
    - destruct (contextHistory state); [discriminate Hh | discriminate].
    - now apply history_nonempty_ltb. }
  split; [exact Hiff|]. split; [|split].
  - intros Hh. rewrite !isUserSatisfied_completion, history_nonempty_ltb by exact Hh.
    repeat split; reflexivity.
  - rewrite isUserSatisfied_completion. apply andb_false_r.
  - intros Hn. apply not_true_is_false. intros H. apply Hiff in H. tauto.
Qed.

Lemma C2_witness :
  contextHistory workingState <> []
  /\ isUserSatisfied workingState (runtimeOf [] (completion "why not")) = true
  /\ isUserSatisfied workingState (runtimeOf [] (completion "no")) = false.
Proof.
  split; [exact workingState_history|]. split.
  - exact (proj1 (proj2 (proj1 (proj2
      (C2_affirmative_iff_reply_contains_y_in_any_case workingState [] "no"))
      workingState_history))).
  - refine (proj2 (proj2 (proj2
      (C2_affirmative_iff_reply_contains_y_in_any_case workingState [] "no"))) _).
    intros H. apply includes_lower_y in H. discriminate H.
Defined.

(** C3. On an empty history no runtime satisfies the user, so the reply y to
    an [attempt_completion] does not end the loop there: the directive still
    forces a tool call and the loop goes on with the outcomes that follow. *)
Theorem C3_completion_on_empty_history_does_not_terminate
    (bound : nat) (request : ModelRequest) (state : State)
    (earlier later : list ToolCall) :
  contextHistory state = [] ->
  (forall runtime, isUserSatisfied state runtime = false)
  /\ toolChoice (modifyModelRequest request state
                   (runtimeOf earlier (completion "y"))) = required
  /\ tools (modifyModelRequest request state
              (runtimeOf earlier (completion "y"))) = tools request
  /\ exit (run (S bound) request state earlier (completion "y" :: later))
     = exit (run bound request
               (applyUpdate state
                  (afterModel state (runtimeOf earlier (completion "y"))))
               (List.app earlier [completion "y"]) later)
  /\ exit (run (S bound) request state earlier [completion "y"])
     = AwaitingOutcome.
Proof.
  intros Hh.
  assert (Hs : forall runtime, isUserSatisfied state runtime = false).
  { intros runtime. unfold isUserSatisfied. rewrite Hh. reflexivity. }
  split; [exact Hs|]. split; [|split; [|split]].
  - rewrite modifyModelRequest_toolChoice, Hs. reflexivity.
  - unfold modifyModelRequest. rewrite Hs. reflexivity.
  - rewrite run_step. cbv zeta. rewrite Hs. reflexivity.
  - rewrite run_step. cbv zeta. rewrite Hs. reflexivity.
Qed.

Lemma C3_witness :
  contextHistory emptyState = []
  /\ exit (run 100 demoRequest emptyState [] [completion "y"]) = AwaitingOutcome.
Proof.
  split; [reflexivity|].
  exact (proj2 (proj2 (proj2 (proj2
    (C3_completion_on_empty_history_does_not_terminate
       99 demoRequest emptyState [] [] eq_refl))))).
Defined.

(** The satisfied branch needs a history: a runtime that satisfies the user
    finds the history not empty. *)
Lemma isUserSatisfied_history (state : State) (runtime : Runtime) :
  isUserSatisfied state runtime = true -> contextHistory state <> [].
Proof.
  intros H. now apply isUserSatisfied_inv in H.
Qed.

(** ** Substrings *)

Lemma prefix_app (needle s : string) :
  String.prefix needle s = true <-> exists post, s = needle ++ post.
Proof.
  revert s. induction needle as [|a needle IH]; intros s.
  - destruct s; simpl; split; eauto.
  - destruct s as [|b s]; simpl.
    + split; [discriminate | intros (post & E); discriminate E].
    + destruct (ascii_dec a b) as [->|Hne].
      * rewrite IH. split; intros (post & E); exists post; congruence.
      * split; [discriminate | intros (post & E); congruence].
Qed.

Lemma includes_Substring (s needle : string) :
  includes s needle = true <-> Substring needle s.
Proof.
  induction s as [|a s IH].
  - change (includes EmptyString needle)
      with (String.prefix needle EmptyString || false).
    rewrite orb_false_r, prefix_app. split.
    + intros (post & E). exists EmptyString, post. exact E.
    + intros (pre & post & E). destruct pre; [|discriminate E].
      exists post. exact E.
  - change (includes (String a s) needle)
      with (String.prefix needle (String a s) || includes s needle).
    rewrite orb_true_iff, prefix_app, IH. split.
    + intros [(post & E)|(pre & post & E)].
      * exists EmptyString, post. exact E.
      * exists (String a pre), post. simpl. congruence.
    + intros (pre & post & E). destruct pre as [|b pre]; simpl in E.
      * left. exists post. exact E.
      * right. exists pre, post. congruence.
Qed.

Lemma append_assoc (a b c : string) : (a ++ b) ++ c = a ++ b ++ c.
Proof. induction a as [|x a IH]; simpl; [reflexivity | now rewrite IH]. Qed.

Lemma append_nil_r (a : string) : a ++ EmptyString = a.
Proof. induction a as [|x a IH]; simpl; [reflexivity | now rewrite IH]. Qed.

Lemma append_inj_l (p a b : string) : p ++ a = p ++ b -> a = b.
Proof.
  induction p as [|c p IH]; simpl; intros E; [exact E|].
  apply IH. congruence.
Qed.

(** C10. The two hooks test the reply to an [attempt_completion] differently:
    the termination check passes when the reply contains the letter y in
    either case, and [afterModel] clears the state only when it contains the
    small letter.  On a history that is not empty the reply Y therefore ends
    the loop while the state is kept: the note of a successful
    [attempt_completion] is appended and the task stays as it was. *)
Theorem C10_reply_Y_terminates_without_reset
    (bound : nat) (request : ModelRequest) (state : State)
    (earlier later : list ToolCall) (resultText : string) :
  contextHistory state <> [] ->
  (isUserSatisfied state (runtimeOf earlier (completion resultText)) = true
   <-> ContainsYAnyCase resultText)
  /\ (afterModel state (runtimeOf earlier (completion resultText)) = resetUpdate
      <-> Occurs "y" resultText)
  /\ isUserSatisfied state (runtimeOf earlier (completion "Y")) = true
  /\ run (S bound) request state earlier (completion "Y" :: later)
     = {| exit := Completed;
          final :=
            {| contextHistory :=
                 List.app (contextHistory state)
                   ["attempt_completion: completed successfully"];
               currentTask := currentTask state |};
          applied := [noteUpdate state "attempt_completion" "Y"] |}.
Proof.
  intros Hh.
  assert (HY : isUserSatisfied state (runtimeOf earlier (completion "Y")) = true).
  { rewrite isUserSatisfied_completion, history_nonempty_ltb by exact Hh.
    reflexivity. }
  split; [|split; [|split]].
  - rewrite isUserSatisfied_completion, history_nonempty_ltb by exact Hh.
    apply includes_lower_y.
  - rewrite afterModel_completion, <- includes_char.
    destruct (includes resultText "y"); split; auto; discriminate.
  - exact HY.
  - rewrite run_step. cbv zeta. rewrite HY, afterModel_completion. reflexivity.
Qed.

Lemma C10_witness :
  contextHistory workingState <> []
  /\ run 100 demoRequest workingState [] [completion "Y"]
     = {| exit := Completed;
          final :=
            {| contextHistory :=
                 ["Started task: fix bug"; "read_file: completed successfully";
                  "attempt_completion: completed successfully"];
               currentTask := Some "fix bug" |};
          applied := [noteUpdate workingState "attempt_completion" "Y"] |}.
Proof.
  split; [exact workingState_history|].
  exact (proj2 (proj2 (proj2
    (C10_reply_Y_terminates_without_reset
       99 demoRequest workingState [] [] "Y" workingState_history)))).
Defined.

(** ** The [new_task] replies *)

(** C5. Whatever the prior state, the [new_task] outcome whose result is the
    confirmation of task_7 with the label fix bug sets the task to fix bug and
    appends the one entry Started task: fix bug to the history. *)
Theorem C5_confirmation_sets_task_and_appends_entry
    (request : ModelRequest) (state : State) (earlier : list ToolCall) :
  afterModel state (runtimeOf earlier (newTaskOutcome confirmedFixBug))
  = {| set_currentTask := Some (Some "fix bug");
       set_contextHistory :=
         Some (List.app (contextHistory state) ["Started task: fix bug"]) |}
  /\ fst (transition request state
            (runtimeOf earlier (newTaskOutcome confirmedFixBug)))
     = {| contextHistory :=
            List.app (contextHistory state) ["Started task: fix bug"];
          currentTask := Some "fix bug" |}.
Proof.
  unfold transition. simpl fst. rewrite afterModel_new_task_call.
  split; reflexivity.
Qed.

(** C6. Whatever the prior state, the [new_task] outcome whose result is the
    feedback not that task leaves the task field as it was, set or not, and
    appends the one entry Task feedback: not that task to the history. *)
Theorem C6_feedback_keeps_task_and_appends_entry
    (request : ModelRequest) (state : State) (earlier : list ToolCall) :
  afterModel state (runtimeOf earlier (newTaskOutcome feedbackNotThatTask))
  = {| set_currentTask := None;
       set_contextHistory :=
         Some (List.app (contextHistory state)
                 ["Task feedback: not that task"]) |}
  /\ fst (transition request state
            (runtimeOf earlier (newTaskOutcome feedbackNotThatTask)))
     = {| contextHistory :=
            List.app (contextHistory state) ["Task feedback: not that task"];
          currentTask := currentTask state |}.
Proof.
  unfold transition. simpl fst. rewrite afterModel_new_task_call.
  split; reflexivity.
Qed.

(** C7, on the code.  The result [confirmedUnquoted] of a [new_task] call
    matches neither pattern, yet [afterModel] does not reach its last
    statement: the confirmation branch returns on the prefix alone, sets the
    task to [undefined] and appends the entry Started task: undefined.  A task
    that was set is lost, and no note about [new_task] is written. *)
Theorem C7_unmatched_confirmation_clears_task
    (request : ModelRequest) (state : State) (earlier : list ToolCall) :
  exec taskPattern confirmedUnquoted = None
  /\ exec feedbackPattern confirmedUnquoted = None
  /\ afterModel state (runtimeOf earlier (newTaskOutcome confirmedUnquoted))
     = {| set_currentTask := Some None;
          set_contextHistory :=
            Some (List.app (contextHistory state) ["Started task: undefined"]) |}
  /\ fst (transition request state
            (runtimeOf earlier (newTaskOutcome confirmedUnquoted)))
     = {| contextHistory :=
            List.app (contextHistory state) ["Started task: undefined"];
          currentTask := None |}
  /\ afterModel state (runtimeOf earlier (newTaskOutcome confirmedUnquoted))
     <> noteUpdate state "new_task" confirmedUnquoted.
Proof.
  unfold transition. simpl fst. rewrite afterModel_new_task_call.
  repeat split; try reflexivity. discriminate.
Qed.

(** ** The note of the last statement of [afterModel] *)

Lemma categoryOf_inv (identifier : string) (category : Category) :
  categoryOf identifier = Some category ->
  In (identifier, category) catalog.
Proof.
  unfold categoryOf. induction catalog as [|[n c] table IH]; simpl.
  - discriminate.
  - destruct (String.eqb_spec n identifier) as [->|Hne].
    + intros E. injection E as ->. now left.
    + intros E. right. now apply IH.
Qed.

Lemma afterModel_note (state : State) (earlier : list ToolCall)
    (identifier resultText : string) :
  ReachesNote identifier resultText ->
  afterModel state (runtimeOf earlier (outcome identifier resultText))
  = noteUpdate state identifier resultText.
Proof.
  intros [H|[H|(H & Hp & Hf)]]; apply categoryOf_inv in H; simpl in H.
  - repeat (destruct H as [H|H]; try discriminate H; try (exfalso; exact H));
      injection H as <-; now apply afterModel_other.
  - repeat (destruct H as [H|H]; try discriminate H; try (exfalso; exact H));
      injection H as <-; now apply afterModel_other.
  - repeat (destruct H as [H|H]; try discriminate H; try (exfalso; exact H)).
    injection H as <-.
    change (outcome "new_task" resultText) with (newTaskOutcome resultText).
    rewrite afterModel_new_task_call. unfold afterModel_new_task.
    destruct (includes resultText "NEW TASK CONFIRMED:") eqn:Hi.
    + apply includes_Substring in Hi. contradiction.
    + rewrite Hf. destruct (includes resultText "TASK FEEDBACK:"); reflexivity.
Qed.

(** An outcome of an ACTION or QUESTION tool, or one of [new_task] whose
    result has neither the prefix of a confirmation nor a feedback that
    matches, appends exactly one entry and leaves the task alone.  The entry
    is the identifier followed by encountered error exactly when the result
    contains Error: or does not exist, and the identifier followed by
    completed successfully exactly when it contains neither. *)
Theorem note_marks_error_iff_result_has_marker
    (request : ModelRequest) (state : State) (earlier : list ToolCall)
    (identifier resultText : string) :
  ReachesNote identifier resultText ->
  exists entry,
    fst (transition request state
           (runtimeOf earlier (outcome identifier resultText)))
    = {| contextHistory := List.app (contextHistory state) [entry];
         currentTask := currentTask state |}
    /\ (entry = identifier ++ ": encountered error"
        <-> Substring "Error:" resultText
            \/ Substring "does not exist" resultText)
    /\ (entry = identifier ++ ": completed successfully"
        <-> ~ (Substring "Error:" resultText
               \/ Substring "does not exist" resultText)).
Proof.
  intros H. unfold transition. simpl fst.
  rewrite (afterModel_note state earlier identifier resultText H).
  unfold noteUpdate, applyUpdate. simpl.
  destruct (includes resultText "Error:") eqn:He,
           (includes resultText "does not exist") eqn:Hd; simpl;
    eexists; (split; [reflexivity|]);
    rewrite <- !includes_Substring, He, Hd;
    (split; split; intros E;
     try reflexivity; try tauto;
     try (apply append_inj_l in E; discriminate E);
     try (exfalso; apply E; tauto);
     try (intros [F|F]; discriminate F);
     try (destruct E as [F|F]; discriminate F)).
Qed.

Lemma note_marks_error_iff_result_has_marker_witness :
  ReachesNote "read_file" missingFile
  /\ exists entry,
       fst (transition demoRequest workingState
              (runtimeOf [] (outcome "read_file" missingFile)))
       = {| contextHistory := List.app (contextHistory workingState) [entry];
            currentTask := currentTask workingState |}
       /\ (entry = "read_file" ++ ": encountered error"
           <-> Substring "Error:" missingFile
               \/ Substring "does not exist" missingFile)
       /\ (entry = "read_file" ++ ": completed successfully"
           <-> ~ (Substring "Error:" missingFile
                  \/ Substring "does not exist" missingFile)).
Proof.
  assert (H : ReachesNote "read_file" missingFile) by (left; reflexivity).
  split; [exact H|].
  exact (note_marks_error_iff_result_has_marker
           demoRequest workingState [] "read_file" missingFile H).
Defined.

(** C8, on the code.  A [new_task] result that contains the prefix of a
    confirmation and does not match the confirmation pattern is an unmatched
    outcome, and it gets no note: whatever else it contains, error markers
    included, [afterModel] returns from the confirmation branch, appends the
    entry Started task: undefined, which is neither of the two notes, and
    sets the task to [undefined]. *)
Theorem C8_unmatched_confirmation_gets_no_note
    (request : ModelRequest) (state : State) (earlier : list ToolCall)
    (resultText : string) :
  Substring "NEW TASK CONFIRMED:" resultText ->
  exec taskPattern resultText = None ->
  fst (transition request state
         (runtimeOf earlier (outcome "new_task" resultText)))
  = {| contextHistory :=
         List.app (contextHistory state) ["Started task: undefined"];
       currentTask := None |}
  /\ "Started task: undefined" <> "new_task" ++ ": encountered error"
  /\ "Started task: undefined" <> "new_task" ++ ": completed successfully"
  /\ fst (transition request state
            (runtimeOf earlier (outcome "new_task" resultText)))
     <> applyUpdate state (noteUpdate state "new_task" resultText).
Proof.
  intros Hp Hm. apply includes_Substring in Hp.
  unfold transition. simpl fst.
  change (outcome "new_task" resultText) with (newTaskOutcome resultText).
  rewrite afterModel_new_task_call. unfold afterModel_new_task.
  rewrite Hp, Hm. unfold applyUpdate, noteUpdate. cbn.
  split; [reflexivity|]. split; [discriminate|]. split; [discriminate|].
  intros E. injection E as E _. apply app_inv_head in E.
  destruct (includes resultText "Error:"
            || includes resultText "does not exist"); discriminate E.
Qed.

(** The unquoted confirmation, and the same reply with an error marker in
    it. *)
Lemma C8_witness :
  (Substring "NEW TASK CONFIRMED:" confirmedUnquoted
   /\ exec taskPattern confirmedUnquoted = None
   /\ exec feedbackPattern confirmedUnquoted = None
   /\ fst (transition demoRequest workingState
             (runtimeOf [] (outcome "new_task" confirmedUnquoted)))
      = {| contextHistory :=
             ["Started task: fix bug"; "read_file: completed successfully";
              "Started task: undefined"];
           currentTask := None |})
  /\ (Substring "NEW TASK CONFIRMED:" (confirmedUnquoted ++ ", Error: none")
      /\ exec taskPattern (confirmedUnquoted ++ ", Error: none") = None
      /\ fst (transition demoRequest workingState
                (runtimeOf []
                   (outcome "new_task"
                      (confirmedUnquoted ++ ", Error: none"))))
         = {| contextHistory :=
                ["Started task: fix bug"; "read_file: completed successfully";
                 "Started task: undefined"];
              currentTask := None |}).
Proof.
  assert (H1 : Substring "NEW TASK CONFIRMED:" confirmedUnquoted)
    by (apply includes_Substring; reflexivity).
  assert (H2 : Substring "NEW TASK CONFIRMED:"
                 (confirmedUnquoted ++ ", Error: none"))
    by (apply includes_Substring; reflexivity).
  split.
  - split; [exact H1|]. split; [reflexivity|]. split; [reflexivity|].
    exact (proj1 (C8_unmatched_confirmation_gets_no_note demoRequest
                    workingState [] confirmedUnquoted H1 eq_refl)).
  - split; [exact H2|]. split; [reflexivity|].
    exact (proj1 (C8_unmatched_confirmation_gets_no_note demoRequest
                    workingState [] (confirmedUnquoted ++ ", Error: none")
                    H2 eq_refl)).
Defined.

(** ** The prompt loop *)

Lemma dropPrefix_Some (p s rest : string) :
  dropPrefix p s = Some rest <-> s = p ++ rest.
Proof.
  revert s. induction p as [|a p IH]; intros s; simpl.
  - split; intros H; congruence.
  - destruct s as [|b s]; [split; discriminate|].
    destruct (Ascii.eqb_spec a b) as [->|Hne].
    + rewrite IH. split; intros H; congruence.
    + split; [discriminate | intros H; congruence].
Qed.

Lemma dropOneOf_Some (candidates : list string) (s rest : string) :
  dropOneOf candidates s = Some rest ->
  exists w, In w candidates /\ s = w ++ rest.
Proof.
  induction candidates as [|w candidates IH]; simpl; [discriminate|].
  destruct (dropPrefix w s) as [t|] eqn:E.
  - intros H. injection H as ->. apply dropPrefix_Some in E. eauto.
  - intros H. destruct (IH H) as (w' & Hin & Hs). eauto.
Qed.

Lemma SequenceOf_app (candidates : list string) (a b : string) :
  SequenceOf candidates a -> SequenceOf candidates b ->
  SequenceOf candidates (a ++ b).
Proof.
  induction 1 as [|w rest Hin _ IH]; intros Hb; [exact Hb|].
  rewrite append_assoc. constructor; auto.
Qed.

Lemma dropLeading_sound (candidates : list string) (fuel : nat) (s : string) :
  exists taken,
    SequenceOf candidates taken
    /\ s = taken ++ dropLeading candidates fuel s.
Proof.
  revert s. induction fuel as [|fuel IH]; intros s; simpl.
  - exists EmptyString. split; [constructor | reflexivity].
  - destruct (dropOneOf candidates s) as [rest|] eqn:E.
    + apply dropOneOf_Some in E. destruct E as (w & Hin & ->).
      destruct (IH rest) as (taken & Ht & Hs).
      exists (w ++ taken). split; [now constructor|].
      rewrite append_assoc. now rewrite <- Hs.
    + exists EmptyString. split; [constructor | reflexivity].
Qed.

Lemma reverse_app (a b : string) : reverse (a ++ b) = reverse b ++ reverse a.
Proof.
  induction a as [|c a IH]; simpl.
  - now rewrite append_nil_r.
  - now rewrite IH, append_assoc.
Qed.

Lemma reverse_involutive (s : string) : reverse (reverse s) = s.
Proof.
  induction s as [|c s IH]; [reflexivity|].
  simpl. rewrite reverse_app, IH. reflexivity.
Qed.

Lemma SequenceOf_reverse (candidates : list string) (s : string) :
  SequenceOf (map reverse candidates) s -> SequenceOf candidates (reverse s).
Proof.
  induction 1 as [|w rest Hin _ IH]; [constructor|].
  rewrite reverse_app. apply SequenceOf_app; [exact IH|].
  apply in_map_iff in Hin. destruct Hin as (w' & <- & Hin).
  rewrite reverse_involutive.
  rewrite <- (append_nil_r w'). constructor; [exact Hin | constructor].
Qed.

(** No character that [trim] removes starts like another one. *)
Lemma whiteSpace_prefix_free (w w' rest rest' : string) :
  In w whiteSpace -> In w' whiteSpace ->
  w ++ rest = w' ++ rest' -> w = w' /\ rest = rest'.
Proof.
  intros Hw Hw' E.
  assert (w = w').
  { simpl in Hw, Hw'.
    repeat (destruct Hw as [<-|Hw]);
      try (exfalso; exact Hw);
      repeat (destruct Hw' as [<-|Hw']);
      try (exfalso; exact Hw');
      try reflexivity; discriminate E. }
  subst w'. split; [reflexivity|]. clear Hw Hw'.
  induction w as [|c w IH]; simpl in E; [exact E|].
  injection E as E. exact (IH E).
Qed.

Lemma whiteSpace_not_empty (w : string) :
  In w whiteSpace -> 1 <= String.length w.
Proof.
  intros Hw. simpl in Hw.
  repeat (destruct Hw as [<-|Hw]); try (exfalso; exact Hw); simpl; lia.
Qed.

Lemma length_append (a b : string) :
  String.length (a ++ b) = String.length a + String.length b.
Proof. induction a as [|c a IH]; simpl; [reflexivity | now rewrite IH]. Qed.

Lemma dropOneOf_finds (candidates : list string) (w rest : string) :
  In w candidates -> dropOneOf candidates (w ++ rest) <> None.
Proof.
  induction candidates as [|w' candidates IH]; simpl; [tauto|].
  intros [->|Hin].
  - rewrite (proj2 (dropPrefix_Some w (w ++ rest) rest) eq_refl). discriminate.
  - destruct (dropPrefix w' (w ++ rest)); [discriminate | now apply IH].
Qed.

Lemma dropOneOf_whiteSpace (w rest : string) :
  In w whiteSpace -> dropOneOf whiteSpace (w ++ rest) = Some rest.
Proof.
  intros Hw. destruct (dropOneOf whiteSpace (w ++ rest)) as [rest'|] eqn:E.
  - apply dropOneOf_Some in E. destruct E as (w' & Hw' & E).
    destruct (whiteSpace_prefix_free w w' rest rest' Hw Hw' E) as [_ ->].
    reflexivity.
  - destruct (dropOneOf_finds whiteSpace w rest Hw E).
Qed.

Lemma dropLeading_Blank (s : string) :
  Blank s ->
  forall fuel, String.length s <= fuel ->
  dropLeading whiteSpace fuel s = EmptyString.
Proof.
  induction 1 as [|w rest Hw _ IH]; intros fuel Hf.
  - destruct fuel; reflexivity.
  - rewrite length_append in Hf.
    pose proof (whiteSpace_not_empty w Hw) as Hlen.
    destruct fuel as [|fuel]; [lia|].
    cbn [dropLeading]. rewrite (dropOneOf_whiteSpace w rest Hw).
    apply IH. lia.
Qed.

Lemma reverse_empty (s : string) : reverse s = EmptyString -> s = EmptyString.
Proof.
  destruct s as [|c s]; [reflexivity|]. simpl.
  destruct (reverse s); discriminate.
Qed.

(** [!reply.trim()] holds exactly of the replies made of white space. *)
Lemma truthy_trim (reply : string) :
  truthy (trim reply) = false <-> Blank reply.
Proof.
  split.
  - intros H. unfold trim, trimEnd, trimStart in H.
    destruct (dropLeading_sound whiteSpace (String.length reply) reply)
      as (taken & Htaken & E).
    set (t := dropLeading whiteSpace (String.length reply) reply) in *.
    destruct (dropLeading_sound (map reverse whiteSpace) (String.length t)
                (reverse t)) as (taken' & Htaken' & E').
    destruct (reverse
                (dropLeading (map reverse whiteSpace) (String.length t)
                   (reverse t))) eqn:Hr; [|discriminate H].
    apply reverse_empty in Hr. rewrite Hr, append_nil_r in E'.
    apply SequenceOf_reverse in Htaken'. rewrite <- E', reverse_involutive in Htaken'.
    rewrite E. apply SequenceOf_app; assumption.
  - intros H. unfold trim, trimStart.
    rewrite (dropLeading_Blank reply H) by lia. reflexivity.
Qed.

(** C9. One turn of the loop of [runAgent] on a result whose first interrupt
    is [first], with the reply just read.  A blank reply to a label that
    contains y/N is taken as the answer N, and the thread is resumed with N;
    a blank reply to any other label is not accepted: nothing is sent to the
    agent and the loop asks again, going on with the replies that follow; a
    reply that is not blank is accepted as it was typed, and the thread is
    resumed with it. *)
Theorem C9_blank_reply_is_asked_again_unless_yes_no
    (Agent Messages Output Error : Type)
    (invoke : Agent -> Input Messages -> Error + (Agent * Result Output))
    (first : Interrupt) (others : list Interrupt) (out : Output)
    (reply : string) (later : list string)
    (fuel : nat) (agent : Agent) (rl : bool)
    (invoked : list (Input Messages)) :
  (Blank reply -> Substring "y/N" (label (value first)) ->
   response_loop (label (value first)) (reply :: later) = Some ("N", later)
   /\ interrupt_loop Agent Messages Output Error invoke (S fuel) agent
        (mkResult (Some (first :: others)) out) rl (reply :: later) invoked
      = resumeWith Agent Messages Output Error invoke fuel agent "N" later
          invoked)
  /\ (Blank reply -> ~ Substring "y/N" (label (value first)) ->
      response_loop (label (value first)) (reply :: later)
      = response_loop (label (value first)) later
      /\ interrupt_loop Agent Messages Output Error invoke (S fuel) agent
           (mkResult (Some (first :: others)) out) rl (reply :: later) invoked
         = interrupt_loop Agent Messages Output Error invoke (S fuel) agent
             (mkResult (Some (first :: others)) out) rl later invoked)
  /\ (~ Blank reply ->
      response_loop (label (value first)) (reply :: later)
      = Some (reply, later)
      /\ interrupt_loop Agent Messages Output Error invoke (S fuel) agent
           (mkResult (Some (first :: others)) out) rl (reply :: later) invoked
         = resumeWith Agent Messages Output Error invoke fuel agent reply
             later invoked).
Proof.
  cbn [interrupt_loop __interrupt__]. unfold resumeWith.
  cbn [response_loop]. destruct (truthy (trim reply)) eqn:Ht; cbn [negb].
  - assert (Hn : ~ Blank reply).
    { intros Hb. apply truthy_trim in Hb. congruence. }
    repeat split; intros; try reflexivity; contradiction.
  - apply truthy_trim in Ht.
    destruct (includes (label (value first)) "y/N") eqn:Hl.
    + apply includes_Substring in Hl.
      repeat split; intros; try reflexivity; contradiction.
    + assert (Hn : ~ Substring "y/N" (label (value first))).
      { intros Hs. apply includes_Substring in Hs. congruence. }
      repeat split; intros; try reflexivity; contradiction.
Qed.

Lemma blank_spaces : Blank "  ".
Proof. apply truthy_trim. reflexivity. Qed.

Lemma blank_noBreakSpace : Blank noBreakSpace.
Proof. apply truthy_trim. reflexivity. Qed.

(** The scripted agent has interrupted with the satisfaction check and the
    human enters a no-break space: the thread is resumed with N.  It has
    interrupted with the question for clarification and the human enters
    spaces: the loop goes on with the next reply.  It has interrupted with
    the task confirmation and the human enters y between spaces: the thread
    is resumed with the reply, spaces included. *)
Lemma C9_witness :
  (Blank noBreakSpace /\ Substring "y/N" attemptCompletionLabel
   /\ response_loop attemptCompletionLabel [noBreakSpace; "yes"]
      = Some ("N", ["yes"])
   /\ interrupt_loop _ _ _ _ scriptedInvoke 3 ([], [])
        (mkResult
           (Some [mkInterrupt
                    (mkInterruptRequest "satisfaction_check"
                       attemptCompletionLabel)]) [])
        false [noBreakSpace; "yes"] [Invoke tt]
      = Returned (mkResult None ["N"]) true [Invoke tt; Resume "N"])
  /\ (Blank "  " /\ ~ Substring "y/N" askForClarificationLabel
      /\ response_loop askForClarificationLabel ["  "; "use src/index.ts"]
         = Some ("use src/index.ts", [])
      /\ interrupt_loop _ _ _ _ scriptedInvoke 3 ([], [])
           (mkResult
              (Some [mkInterrupt
                       (mkInterruptRequest "clarification"
                          askForClarificationLabel)]) [])
           false ["  "; "use src/index.ts"] [Invoke tt]
         = Returned (mkResult None ["use src/index.ts"]) true
             [Invoke tt; Resume "use src/index.ts"])
  /\ (~ Blank " y "
      /\ response_loop newTaskLabel [" y "] = Some (" y ", [])
      /\ interrupt_loop _ _ _ _ scriptedInvoke 3 ([], [])
           (mkResult
              (Some [mkInterrupt
                       (mkInterruptRequest "task_confirmation" newTaskLabel)])
              [])
           false [" y "] [Invoke tt]
         = Returned (mkResult None [" y "]) true [Invoke tt; Resume " y "]).
Proof.
  assert (Hyn : Substring "y/N" attemptCompletionLabel).
  { apply includes_Substring. reflexivity. }
  assert (Hno : ~ Substring "y/N" askForClarificationLabel).
  { intros H. apply includes_Substring in H. discriminate H. }
  assert (Hy : ~ Blank " y ").
  { intros H. apply truthy_trim in H. discriminate H. }
  split; [|split].
  - split; [exact blank_noBreakSpace|]. split; [exact Hyn|].
    exact (proj1 (C9_blank_reply_is_asked_again_unless_yes_no
                    _ _ _ _ scriptedInvoke
                    (mkInterrupt
                       (mkInterruptRequest "satisfaction_check"
                          attemptCompletionLabel))
                    [] [] noBreakSpace ["yes"] 2 ([], []) false [Invoke tt])
             blank_noBreakSpace Hyn).
  - split; [exact blank_spaces|]. split; [exact Hno|].
    exact (proj1 (proj2 (C9_blank_reply_is_asked_again_unless_yes_no
                    _ _ _ _ scriptedInvoke
                    (mkInterrupt
                       (mkInterruptRequest "clarification"
                          askForClarificationLabel))
                    [] [] "  " ["use src/index.ts"] 2 ([], []) false
                    [Invoke tt]))
             blank_spaces Hno).
  - split; [exact Hy|].
    exact (proj2 (proj2 (C9_blank_reply_is_asked_again_unless_yes_no
                    _ _ _ _ scriptedInvoke
                    (mkInterrupt
                       (mkInterruptRequest "task_confirmation" newTaskLabel))
                    [] [] " y " [] 2 ([], []) false [Invoke tt])) Hy).
Defined.

(** ** The task over a session *)

(** Each step of [afterModel] either clears the state, on an
    [attempt_completion] whose result contains the small letter y, or appends
    one entry to the history. *)
Lemma afterModel_cases (state : State) (runtime : Runtime) :
  (afterModel state runtime = resetUpdate
   /\ exists resultText,
        at_last (toolCalls runtime) = Some (completion resultText)
        /\ includes resultText "y" = true)
  \/ exists entry,
       set_contextHistory (afterModel state runtime)
       = Some (List.app (contextHistory state) [entry]).
Proof.
  unfold afterModel, afterModel_new_task, nameIs, nameOf, resultOf.
  destruct (at_last (toolCalls runtime)) as [[n r]|]; [|right; simpl; eauto].
  cbn [option_map name result].
  set (res := match r with Some r0 => r0 | None => EmptyString end).
  destruct (n =? "new_task") eqn:Hn.
  - assert (Hc : (n =? "attempt_completion") = false).
    { apply String.eqb_eq in Hn. subst n. reflexivity. }
    rewrite Hc. cbn [andb].
    destruct (includes res "NEW TASK CONFIRMED:"); [right; simpl; eauto|].
    destruct (includes res "TASK FEEDBACK:");
      [destruct (exec feedbackPattern res)|]; right; simpl; eauto.
  - destruct (n =? "attempt_completion") eqn:Hc; cbn [andb];
      [|right; simpl; eauto].
    destruct (includes res "y") eqn:Hy; [|right; simpl; eauto].
    left. split; [reflexivity|].
    destruct r as [r|]; [|discriminate Hy].
    exists r. apply String.eqb_eq in Hc. subst n. auto.
Qed.

(** C4, on the code.  From the empty state, once the task fix bug has been
    confirmed, a second [new_task] reply that has the prefix of a confirmation
    and not its full form unsets the task: no completion occurred and the flag
    of the invariant is still up, but [currentTask] is [undefined].  The other
    half of the invariant holds at every step: the history either grows by one
    entry or is cleared, and it is cleared from a history that was not empty
    only when the completion satisfies the user. *)
Theorem C4_unquoted_confirmation_unsets_confirmed_task :
  evolve emptyState [] [newTaskOutcome confirmedFixBug]
  = {| contextHistory := ["Started task: fix bug"];
       currentTask := Some "fix bug" |}
  /\ evolve emptyState [] lostTaskSession
     = {| contextHistory := ["Started task: fix bug"; "Started task: undefined"];
          currentTask := None |}
  /\ taskExpected false emptyState [] lostTaskSession = true
  /\ forallb (fun call => negb (name call =? "attempt_completion"))
       lostTaskSession = true
  /\ (forall state runtime,
        (exists entry,
           contextHistory (applyUpdate state (afterModel state runtime))
           = List.app (contextHistory state) [entry])
        \/ (applyUpdate state (afterModel state runtime) = emptyState
            /\ (contextHistory state <> [] ->
                isUserSatisfied state runtime = true))).
Proof.
  split; [reflexivity|]. split; [reflexivity|].
  split; [reflexivity|]. split; [reflexivity|].
  intros state runtime.
  destruct (afterModel_cases state runtime) as [(E & r & Hlast & Hy)|(entry & E)].
  - right. rewrite E. split; [reflexivity|]. intros Hh.
    unfold isUserSatisfied, nameIs, nameOf, resultOf. rewrite Hlast. simpl.
    rewrite history_nonempty_ltb by exact Hh.
    now rewrite (includes_y_lower r Hy).
  - left. exists entry. unfold applyUpdate. rewrite E. reflexivity.
Qed.

(** ** What a match of the confirmation pattern says *)

Lemma plusK_inv {A : Type} (cls : ascii -> bool) (s : string)
    (k : string -> option A) (x : A) :
  plusK cls s k = Some x -> exists rest, k rest = Some x.
Proof.
  induction s as [|c s IH]; simpl; [discriminate|].
  destruct (cls c); [|discriminate].
  destruct (plusK cls s k) eqn:E.
  - intros H. injection H as ->. now apply IH.
  - intros H. eauto.
Qed.

(** A match that went through a literal found it: [H] says that a test on a
    literal, followed by the rest of the match, succeeded. *)
Ltac literal_matched H :=
  match type of H with
  | (if ?b then _ else _) = Some _ => destruct b; [|discriminate H]
  end.

Lemma matchHere_taskPattern (s : string) (m : list string) :
  matchHere taskPattern s = Some m ->
  String.prefix "NEW TASK CONFIRMED: " s = true
  /\ exists whole identifier label, m = [whole; identifier; label].
Proof.
  unfold matchHere, taskPattern. cbn [matchK].
  destruct (String.prefix "NEW TASK CONFIRMED: " s); [|discriminate].
  intros H. split; [reflexivity|].
  literal_matched H.
  apply plusK_inv in H. destruct H as (rest1 & H). cbv beta in H.
  literal_matched H.
  apply plusK_inv in H. destruct H as (rest2 & H). cbv beta in H.
  literal_matched H.
  injection H as <-. simpl. eauto.
Qed.

Lemma includes_later (s needle : string) (a : ascii) :
  includes s needle = true -> includes (String a s) needle = true.
Proof.
  intros H.
  change (includes (String a s) needle)
    with (String.prefix needle (String a s) || includes s needle).
  rewrite H. apply orb_true_r.
Qed.

Lemma exec_taskPattern (s : string) (m : list string) :
  exec taskPattern s = Some m ->
  includes s "NEW TASK CONFIRMED:" = true
  /\ exists whole identifier label, m = [whole; identifier; label].
Proof.
  induction s as [|a s IH].
  - unfold exec. destruct (matchHere taskPattern EmptyString) eqn:E;
      [|discriminate].
    apply matchHere_taskPattern in E. destruct E as [E _]. discriminate E.
  - change (exec taskPattern (String a s))
      with (match matchHere taskPattern (String a s) with
            | Some m' => Some m'
            | None => exec taskPattern s
            end).
    destruct (matchHere taskPattern (String a s)) eqn:E.
    + intros H. injection H as ->.
      apply matchHere_taskPattern in E. destruct E as [Hp Hm].
      split; [|exact Hm].
      apply includes_Substring. apply prefix_app in Hp.
      destruct Hp as (post & ->). exists EmptyString, (" " ++ post).
      reflexivity.
    + intros H. apply IH in H. destruct H as [Hi Hm].
      split; [|exact Hm]. now apply includes_later.
Qed.

(** ** The task invariant where every confirmation is well formed *)

Lemma task_step (state : State) (earlier : list ToolCall) (call : ToolCall) :
  unmatchedConfirmation call = false ->
  isSet (currentTask
           (applyUpdate state (afterModel state (runtimeOf earlier call))))
  = if isReset (afterModel state (runtimeOf earlier call)) then false
    else if confirmationAccepted call then true
    else isSet (currentTask state).
Proof.
  unfold unmatchedConfirmation, confirmationAccepted, resultTextOf, afterModel.
  rewrite lastToolCall_runtimeOf.
  unfold nameIs, nameOf, resultOf, afterModel_new_task.
  destruct call as [n r]. cbn [option_map name result].
  set (res := match r with Some r0 => r0 | None => EmptyString end).
  destruct (n =? "new_task") eqn:Hn.
  - assert (Hc : (n =? "attempt_completion") = false).
    { apply String.eqb_eq in Hn. subst n. reflexivity. }
    rewrite Hc. cbn [andb].
    destruct (includes res "NEW TASK CONFIRMED:") eqn:Hp.
    + destruct (exec taskPattern res) as [m|] eqn:Em; [|discriminate].
      intros _. destruct (exec_taskPattern _ _ Em) as [_ (w & i & l & ->)].
      cbn. destruct (contextHistory state); reflexivity.
    + intros _. destruct (exec taskPattern res) as [m|] eqn:Em.
      { apply exec_taskPattern in Em. destruct Em as [Em _]. congruence. }
      destruct (includes res "TASK FEEDBACK:");
        [destruct (exec feedbackPattern res)|]; reflexivity.
  - intros _. cbn [andb].
    destruct (n =? "attempt_completion"); cbn [andb];
      [destruct (includes res "y")|]; reflexivity.
Qed.

(** As long as no [new_task] reply has the prefix of a confirmation without
    its full form, the task is set exactly when the flag of the invariant is
    up: after any sequence of transition steps, [currentTask] is set if and
    only if a confirmation was accepted and no reset came after it. *)
Theorem task_set_iff_confirmed_and_not_reset (outcomes : list ToolCall) :
  forall (state : State) (earlier : list ToolCall),
  forallb (fun call => negb (unmatchedConfirmation call)) outcomes = true ->
  isSet (currentTask (evolve state earlier outcomes))
  = taskExpected (isSet (currentTask state)) state earlier outcomes.
Proof.
  induction outcomes as [|call later IH]; intros state earlier Hw.
  - reflexivity.
  - simpl in Hw. apply andb_prop in Hw as [Hcall Hlater].
    apply negb_true_iff in Hcall.
    cbn [evolve taskExpected]. rewrite IH by exact Hlater.
    now rewrite (task_step state earlier call Hcall).
Qed.

Lemma task_set_iff_confirmed_and_not_reset_witness :
  forallb (fun call => negb (unmatchedConfirmation call)) roundTripSession = true
  /\ isSet (currentTask (evolve emptyState [] roundTripSession))
     = taskExpected false emptyState [] roundTripSession.
Proof.
  split; [reflexivity|].
  exact (task_set_iff_confirmed_and_not_reset roundTripSession emptyState []
           eq_refl).
Defined.

(** * Further properties *)

(** ** The prompt loop over all its passes *)

(** Whatever the label and the replies, the response the prompt loop hands
    over is never blank: it is a reply that is not blank, or the answer N. *)
Lemma response_loop_never_blank (label : string) (replies : list string)
    (response : string) (later : list string) :
  response_loop label replies = Some (response, later) ->
  ~ Blank response.
Proof.
  induction replies as [|reply replies IH]; simpl; [discriminate|].
  destruct (truthy (trim reply)) eqn:Ht; simpl.
  - intros H. injection H as <- _. intros Hb.
    apply truthy_trim in Hb. congruence.
  - destruct (includes label "y/N").
    + intros H. injection H as <- _. intros Hb.
      apply truthy_trim in Hb. discriminate Hb.
    + exact IH.
Qed.

Lemma response_loop_blank (label reply : string) (later : list string) :
  Blank reply -> ~ Substring "y/N" label ->
  response_loop label (reply :: later) = response_loop label later.
Proof.
  intros Hb Hl. simpl. apply truthy_trim in Hb. rewrite Hb. simpl.
  destruct (includes label "y/N") eqn:Hi; [|reflexivity].
  apply includes_Substring in Hi. contradiction.
Qed.

Lemma response_loop_not_blank (label reply : string) (later : list string) :
  ~ Blank reply -> response_loop label (reply :: later) = Some (reply, later).
Proof.
  intros Hr. simpl. destruct (truthy (trim reply)) eqn:Ht; [reflexivity|].
  apply truthy_trim in Ht. contradiction.
Qed.

(** Under a label without y/N the prompt loop drops every blank reply,
    however many there are, and returns the first one that is not blank with
    the replies after it; as long as all replies are blank it keeps asking. *)
Theorem response_loop_returns_first_reply_not_blank
    (label reply : string) (blanks later : list string) :
  ~ Substring "y/N" label ->
  Forall Blank blanks ->
  response_loop label blanks = None
  /\ (~ Blank reply ->
      response_loop label (List.app blanks (reply :: later))
      = Some (reply, later)).
Proof.
  intros Hl Hb. induction Hb as [|b blanks Hblank _ IH].
  - split; [reflexivity|]. apply response_loop_not_blank.
  - destruct IH as [IHn IHs]. split.
    + rewrite response_loop_blank by assumption. exact IHn.
    + intros Hr. cbn [List.app].
      rewrite response_loop_blank by assumption. exact (IHs Hr).
Qed.

Lemma not_yes_no_clarification : ~ Substring "y/N" askForClarificationLabel.
Proof. intros H. apply includes_Substring in H. discriminate H. Qed.

Lemma blank_replies :
  Forall Blank
    [EmptyString; "  "; noBreakSpace; bytes [0xE3; 0x80; 0x80; 9; 0xEF; 0xBB; 0xBF]].
Proof. repeat constructor; apply truthy_trim; reflexivity. Qed.

(** The human enters nothing, spaces, a no-break space, then an ideographic
    space, a TAB and a byte order mark, and only then an answer. *)
Lemma response_loop_returns_first_reply_not_blank_witness :
  ~ Substring "y/N" askForClarificationLabel
  /\ Forall Blank
       [EmptyString; "  "; noBreakSpace;
        bytes [0xE3; 0x80; 0x80; 9; 0xEF; 0xBB; 0xBF]]
  /\ response_loop askForClarificationLabel
       [EmptyString; "  "; noBreakSpace;
        bytes [0xE3; 0x80; 0x80; 9; 0xEF; 0xBB; 0xBF]]
     = None
  /\ (~ Blank "use src/index.ts" ->
      response_loop askForClarificationLabel
        (List.app
           [EmptyString; "  "; noBreakSpace;
            bytes [0xE3; 0x80; 0x80; 9; 0xEF; 0xBB; 0xBF]]
           ("use src/index.ts" :: ["y"]))
      = Some ("use src/index.ts", ["y"])).
Proof.
  split; [exact not_yes_no_clarification|]. split; [exact blank_replies|].
  exact (response_loop_returns_first_reply_not_blank
           askForClarificationLabel "use src/index.ts" _ ["y"]
           not_yes_no_clarification blank_replies).
Defined.

(** ** [runAgent] *)

Lemma response_loop_shorter (label : string) (replies : list string)
    (response : string) (later : list string) :
  response_loop label replies = Some (response, later) ->
  List.length later < List.length replies.
Proof.
  induction replies as [|reply replies IH]; simpl; [discriminate|].
  destruct (negb (truthy (trim reply))).
  - destruct (includes label "y/N").
    + intros H. injection H as _ <-. lia.
    + intros H. apply IH in H. lia.
  - intros H. injection H as _ <-. lia.
Qed.

Section RunAgentFacts.

Variable Agent : Type.
Variable Messages : Type.
Variable Output : Type.
Variable Error : Type.
Variable invoke : Agent -> Input Messages -> Error + (Agent * Result Output).

Lemma interrupt_loop_returned (fuel : nat) :
  forall (agent : Agent) (result : Result Output) (rl : bool)
         (replies : list string) (invoked : list (Input Messages))
         (final : Result Output) (closed : bool)
         (all : list (Input Messages)),
  interrupt_loop Agent Messages Output Error invoke
    fuel agent result rl replies invoked
  = Returned final closed all ->
  __interrupt__ final = None
  /\ List.length invoked <= List.length all
  /\ closed = rl || (List.length invoked <? List.length all)%nat.
Proof.
  induction fuel as [|fuel IH];
    intros agent result rl replies invoked final closed all; simpl.
  - destruct (__interrupt__ result) eqn:Hi; [discriminate|].
    intros H. injection H as <- <- <-.
    rewrite Nat.ltb_irrefl, orb_false_r. auto.
  - destruct (__interrupt__ result) as [[|i interrupts]|] eqn:Hi;
      try discriminate.
    + destruct (response_loop (label (value i)) replies)
        as [[response later]|]; [|discriminate].
      destruct (invoke agent (Resume response)) as [error|[agent' result']];
        [discriminate|].
      intros H. apply IH in H. destruct H as (Hnone & Hlen & Hclosed).
      rewrite length_app in Hlen. simpl in Hlen, Hclosed.
      split; [exact Hnone|]. split; [lia|].
      assert (Hlt : (List.length invoked <? List.length all)%nat = true)
        by (apply Nat.ltb_lt; lia).
      rewrite Hlt, orb_true_r. exact Hclosed.
    + intros H. injection H as <- <- <-.
      rewrite Nat.ltb_irrefl, orb_false_r. auto.
Qed.

End RunAgentFacts.

(** The response of the prompt loop is the first reply that is not blank,
    or the answer N for a blank reply under a label with y/N; the replies
    left over are among those it was given. *)
Lemma response_loop_answer (label : string) (replies : list string)
    (response : string) (later : list string) :
  response_loop label replies = Some (response, later) ->
  (In response replies
   \/ (response = "N" /\ Substring "y/N" label
       /\ exists reply, In reply replies /\ Blank reply))
  /\ incl later replies.
Proof.
  induction replies as [|reply replies IH]; cbn [response_loop];
    [discriminate|].
  destruct (truthy (trim reply)) eqn:Ht; cbn [negb].
  - intros H. injection H as <- <-.
    split; [left; now left | apply incl_tl, incl_refl].
  - apply truthy_trim in Ht.
    destruct (includes label "y/N") eqn:Hl.
    + intros H. injection H as <- <-. apply includes_Substring in Hl.
      split; [|apply incl_tl, incl_refl].
      right. split; [reflexivity|]. split; [exact Hl|].
      exists reply. split; [now left | exact Ht].
    + intros H. destruct (IH H) as [[Hin|(E & Hs & r & Hr & Hb)] Hincl].
      * split; [left; now right | now apply incl_tl].
      * split; [|now apply incl_tl].
        right. split; [exact E|]. split; [exact Hs|].
        exists r. split; [now right | exact Hb].
Qed.

Lemma AnsweredBy_incl (Output : Type) (later replies : list string)
    (result : Result Output) (response : string) :
  incl later replies ->
  AnsweredBy later result response -> AnsweredBy replies result response.
Proof.
  intros Hincl (first & others & Hi & Hnb & H).
  exists first, others. split; [exact Hi|]. split; [exact Hnb|].
  destruct H as [H|(E & Hs & r & Hr & Hb)]; [left; now apply Hincl|].
  right. split; [exact E|]. split; [exact Hs|].
  exists r. split; [now apply Hincl | exact Hb].
Qed.

Section RunAgentTrace.

Variable Agent : Type.
Variable Messages : Type.
Variable Output : Type.
Variable Error : Type.
Variable invoke : Agent -> Input Messages -> Error + (Agent * Result Output).

Lemma interrupt_loop_trace (fuel : nat) :
  forall (agent : Agent) (result : Result Output) (rl : bool)
         (replies : list string) (invoked : list (Input Messages)),
  List.length replies < fuel ->
  exists responses answered rest,
    invocations (interrupt_loop Agent Messages Output Error invoke
                   fuel agent result rl replies invoked)
    = List.app invoked (map Resume responses)
    /\ Forall2 (AnsweredBy replies) answered responses
    /\ result :: replay Agent Messages Output Error invoke agent
                   (map Resume responses)
       = List.app answered rest
    /\ List.length rest <= 1
    /\ (forall final closed all,
          interrupt_loop Agent Messages Output Error invoke
            fuel agent result rl replies invoked
          = Returned final closed all ->
          rest = [final]).
Proof.
  induction fuel as [|fuel IH]; intros agent result rl replies invoked Hf;
    [lia|].
  assert (Hstop : forall outcome : Outcome Messages Output Error,
            invocations outcome = invoked ->
            (forall final closed all,
               outcome = Returned final closed all -> final = result) ->
            exists responses answered rest,
              invocations outcome = List.app invoked (map Resume responses)
              /\ Forall2 (AnsweredBy replies) answered responses
              /\ result :: replay Agent Messages Output Error invoke agent
                             (map Resume responses)
                 = List.app answered rest
              /\ List.length rest <= 1
              /\ (forall final closed all,
                    outcome = Returned final closed all -> rest = [final])).
  { intros outcome Hinv Hfinal. exists [], [], [result]. simpl.
    rewrite app_nil_r. split; [exact Hinv|]. split; [constructor|].
    split; [reflexivity|]. split; [lia|].
    intros final closed all H. now rewrite (Hfinal final closed all H). }
  cbn [interrupt_loop].
  destruct (__interrupt__ result) as [[|first others]|] eqn:Hi.
  - apply Hstop; [reflexivity | discriminate].
  - destruct (response_loop (label (value first)) replies)
      as [[response later]|] eqn:Hr;
      [|apply Hstop; [reflexivity | discriminate]].
    pose proof (response_loop_never_blank _ _ _ _ Hr) as Hnb.
    pose proof (response_loop_shorter _ _ _ _ Hr) as Hlen.
    destruct (response_loop_answer _ _ _ _ Hr) as [Hans Hincl].
    assert (Hthis : AnsweredBy replies result response).
    { exists first, others. auto. }
    destruct (invoke agent (Resume response)) as [error|[agent' result']]
      eqn:Hinvoke.
    + exists [response], [result], []. cbn [map replay invocations].
      rewrite Hinvoke. split; [reflexivity|].
      split; [repeat constructor; exact Hthis|].
      split; [reflexivity|]. split; [simpl; lia | discriminate].
    + destruct (IH agent' result' true later
                  (List.app invoked [Resume response]))
        as (responses & answered & rest & E & Hall & Hreplay & Hrest & Hret);
        [lia|].
      exists (response :: responses), (result :: answered), rest.
      cbn [map replay]. rewrite Hinvoke, E, <- app_assoc.
      split; [reflexivity|].
      split.
      { constructor; [exact Hthis|].
        eapply Forall2_impl; [|exact Hall].
        intros r a. now apply AnsweredBy_incl. }
      split; [simpl; now rewrite Hreplay|].
      split; [exact Hrest | exact Hret].
  - apply Hstop; [reflexivity|]. intros final closed all H.
    now injection H as <- _ _.
Qed.

End RunAgentTrace.

(** The agent is invoked once with the messages and after that only resumed,
    whatever the agent does and however the call of [runAgent] ends.  The
    resumes answer the results of the agent one for one and in order: each
    result that is answered has an interrupt pending, and its response is a
    reply of the human that is not blank, or the answer N for a blank reply
    under a label with y/N.  At most one result is left without an answer,
    the last one; when [runAgent] returns, it is the result returned. *)
Theorem runAgent_invokes_then_resumes_once_for_each_interrupt
    (Agent Messages Output Error : Type)
    (invoke : Agent -> Input Messages -> Error + (Agent * Result Output))
    (agent : Agent) (messages : Messages) (replies : list string) :
  exists responses answered rest,
    invocations (runAgent Agent Messages Output Error invoke
                   agent messages replies)
    = Invoke messages :: map Resume responses
    /\ Forall2 (AnsweredBy replies) answered responses
    /\ replay Agent Messages Output Error invoke agent
         (Invoke messages :: map Resume responses)
       = List.app answered rest
    /\ List.length rest <= 1
    /\ (forall final closed invoked,
          runAgent Agent Messages Output Error invoke agent messages replies
          = Returned final closed invoked ->
          rest = [final]).
Proof.
  unfold runAgent. cbn [replay].
  destruct (invoke agent (Invoke messages)) as [error|[agent' result]].
  - exists [], [], []. simpl. split; [reflexivity|]. split; [constructor|].
    split; [reflexivity|]. split; [lia | discriminate].
  - destruct (interrupt_loop_trace Agent Messages Output Error invoke
                (S (List.length replies)) agent' result false replies
                [Invoke messages])
      as (responses & answered & rest & E & Hall & Hreplay & Hrest & Hret);
      [lia|].
    exists responses, answered, rest. rewrite E. auto.
Qed.

(** The scripted agent asks for clarification and then for satisfaction; the
    human enters spaces, an answer, and a no-break space. *)
Lemma runAgent_invokes_then_resumes_once_for_each_interrupt_witness :
  exists responses answered rest,
    invocations (runAgent _ _ _ _ scriptedInvoke
                   ([askForClarificationLabel; attemptCompletionLabel], [])
                   tt ["  "; "use src/index.ts"; noBreakSpace])
    = Invoke tt :: map Resume responses
    /\ Forall2 (AnsweredBy ["  "; "use src/index.ts"; noBreakSpace])
         answered responses
    /\ replay _ _ _ _ scriptedInvoke
         ([askForClarificationLabel; attemptCompletionLabel], [])
         (Invoke tt :: map Resume responses)
       = List.app answered rest
    /\ List.length rest <= 1
    /\ (forall final closed invoked,
          runAgent _ _ _ _ scriptedInvoke
            ([askForClarificationLabel; attemptCompletionLabel], [])
            tt ["  "; "use src/index.ts"; noBreakSpace]
          = Returned final closed invoked ->
          rest = [final]).
Proof.
  exact (runAgent_invokes_then_resumes_once_for_each_interrupt _ _ _ _
           scriptedInvoke
           ([askForClarificationLabel; attemptCompletionLabel], [])
           tt ["  "; "use src/index.ts"; noBreakSpace]).
Defined.

(** On that run the agent hears the answer and then N. *)
Example scripted_run_resumes :
  runAgent _ _ _ _ scriptedInvoke
    ([askForClarificationLabel; attemptCompletionLabel], []) tt
    ["  "; "use src/index.ts"; noBreakSpace]
  = Returned (mkResult None ["use src/index.ts"; "N"]) true
      [Invoke tt; Resume "use src/index.ts"; Resume "N"].
Proof. reflexivity. Qed.

(** A result that [runAgent] returns has no interrupt pending, and the
    readline interface was closed exactly when the agent had to be resumed;
    a call that never met an interrupt opened none. *)
Theorem runAgent_returns_a_result_without_interrupt
    (Agent Messages Output Error : Type)
    (invoke : Agent -> Input Messages -> Error + (Agent * Result Output))
    (agent : Agent) (messages : Messages) (replies : list string)
    (result : Result Output) (closed : bool)
    (invoked : list (Input Messages)) :
  runAgent Agent Messages Output Error invoke agent messages replies
  = Returned result closed invoked ->
  __interrupt__ result = None
  /\ closed = (1 <? List.length invoked)%nat.
Proof.
  unfold runAgent.
  destruct (invoke agent (Invoke messages)) as [error|[agent' result']];
    [discriminate|].
  intros H. apply interrupt_loop_returned in H.
  destruct H as (Hnone & _ & Hclosed). auto.
Qed.

Lemma runAgent_returns_a_result_without_interrupt_witness :
  runAgent _ _ _ _ scriptedInvoke
    ([askForClarificationLabel; attemptCompletionLabel], []) tt
    ["  "; "use src/index.ts"; EmptyString]
  = Returned (mkResult None ["use src/index.ts"; "N"]) true
      [Invoke tt; Resume "use src/index.ts"; Resume "N"]
  /\ __interrupt__ (mkResult None ["use src/index.ts"; "N"]) = None
  /\ true = (1 <? 3)%nat.
Proof.
  assert (H : runAgent _ _ _ _ scriptedInvoke
                ([askForClarificationLabel; attemptCompletionLabel], []) tt
                ["  "; "use src/index.ts"; EmptyString]
              = Returned (mkResult None ["use src/index.ts"; "N"]) true
                  [Invoke tt; Resume "use src/index.ts"; Resume "N"])
    by reflexivity.
  split; [exact H|].
  exact (runAgent_returns_a_result_without_interrupt _ _ _ _ _ _ _ _ _ _ _ H).
Defined.

(** ** More on strings *)

Lemma Substring_app_l (needle a b : string) :
  Substring needle a -> Substring needle (a ++ b).
Proof.
  intros (pre & post & ->). exists pre, (post ++ b).
  now rewrite !append_assoc.
Qed.

Lemma Substring_app_r (needle a b : string) :
  Substring needle b -> Substring needle (a ++ b).
Proof.
  intros (pre & post & ->). exists (a ++ pre), post.
  now rewrite !append_assoc.
Qed.


(** A needle that starts where [q] starts and does not contain [c] ends
    before the [c] that follows [q]. *)
Lemma prefix_before_char (needle post q r : string) (c : ascii) :
  ~ Occurs c needle ->
  needle ++ post = q ++ String c r ->
  exists x, q = needle ++ x.
Proof.
  revert q. induction needle as [|a needle IH]; intros q Hc E.
  - exists q. reflexivity.
  - destruct q as [|b q]; simpl in E.
    + injection E as -> _. destruct Hc. apply Occurs_here.
    + injection E as -> E.
      destruct (IH q) as (x & ->); [|exact E|].
      * intros H. apply Hc. now apply Occurs_later.
      * exists x. reflexivity.
Qed.

(** A needle without the character [c] lies on one side of a [c]. *)
Lemma Substring_split_at_char (needle p r : string) (c : ascii) :
  ~ Occurs c needle ->
  Substring needle (p ++ String c r) <->
  Substring needle p \/ Substring needle r.
Proof.
  intros Hc. split.
  - intros (pre & post & E). revert pre E.
    induction p as [|a p IH]; intros pre E.
    + destruct pre as [|b pre]; simpl in E.
      * destruct needle as [|n needle].
        -- left. exists EmptyString, EmptyString. reflexivity.
        -- injection E as <- _. destruct Hc. apply Occurs_here.
      * right. injection E as _ ->. exists pre, post. reflexivity.
    + destruct pre as [|b pre].
      * left. simpl in E. symmetry in E.
        destruct (prefix_before_char needle post (String a p) r c Hc E)
          as (x & Ex).
        rewrite Ex. exists EmptyString, x. reflexivity.
      * simpl in E. injection E as <- E.
        destruct (IH pre E) as [(pre' & post' & ->)|H].
        -- left. exists (String a pre'), post'. reflexivity.
        -- now right.
  - intros [H|H]; [now apply Substring_app_l|].
    apply Substring_app_r.
    change (String c r) with (String c EmptyString ++ r).
    now apply Substring_app_r.
Qed.

(** ** What the middleware records of the results of the tools *)

Lemma HasErrorMarker_includes (resultText : string) :
  includes resultText "Error:" || includes resultText "does not exist" = true
  <-> HasErrorMarker resultText.
Proof.
  unfold HasErrorMarker. rewrite orb_true_iff, !includes_Substring. tauto.
Qed.

Lemma recorded_note (state : State) (earlier : list ToolCall)
    (identifier resultText : string) :
  (identifier =? "new_task") = false ->
  (identifier =? "attempt_completion") = false ->
  (HasErrorMarker resultText ->
   recorded state earlier identifier resultText
   = withEntry state (identifier ++ ": encountered error"))
  /\ (~ HasErrorMarker resultText ->
      recorded state earlier identifier resultText
      = withEntry state (identifier ++ ": completed successfully")).
Proof.
  intros Hn Hc. unfold recorded.
  rewrite (afterModel_other state earlier identifier resultText Hn Hc).
  unfold noteUpdate, applyUpdate, withEntry. simpl.
  destruct (includes resultText "Error:" || includes resultText "does not exist")
    eqn:E.
  - split; [reflexivity|]. intros H. apply HasErrorMarker_includes in E.
    contradiction.
  - split; [|reflexivity]. intros H. apply HasErrorMarker_includes in H.
    congruence.
Qed.

Lemma tryCatch_failed (lines : list string) (body : Tool.M string)
    (handler : Tool.JsError -> string) (error : Tool.JsError) :
  snd body = inl error -> snd (Tool.tryCatch lines body handler) = handler error.
Proof. destruct body as [events [e|text]]; simpl; congruence. Qed.

Lemma tryCatch_returned (lines : list string) (body : Tool.M string)
    (handler : Tool.JsError -> string) (text : string) :
  snd body = inr text -> snd (Tool.tryCatch lines body handler) = text.
Proof. destruct body as [events [e|t]]; simpl; congruence. Qed.

Lemma HasErrorMarker_prefix (rest : string) :
  HasErrorMarker ("Error: " ++ rest).
Proof. left. exists EmptyString, (" " ++ rest). reflexivity. Qed.

(** A failure that the tools name, a file or directory that is missing or a
    permission that is denied, always reaches the history as an error: the
    result starts with the marker, whatever the path is. *)
Theorem named_failures_are_recorded_as_errors
    (env : Tool.Env) (state : State) (earlier : list ToolCall)
    (path content : string) (pattern : option string) (mode : Tool.Mode)
    (error : Tool.JsError) :
  Tool.codeIs error "ENOENT" || Tool.codeIs error "EACCES" = true ->
  (snd (Tool.readFile_try env path) = inl error ->
   recorded state earlier "read_file" (snd (Tool.readFile env path))
   = withEntry state "read_file: encountered error")
  /\ (snd (Tool.listFiles_try env path pattern) = inl error ->
      recorded state earlier "list_files" (snd (Tool.listFiles env path pattern))
      = withEntry state "list_files: encountered error")
  /\ (Tool.codeIs error "EACCES" = true ->
      snd (Tool.writeToFile_try env path content mode) = inl error ->
      recorded state earlier "write_to_file"
        (snd (Tool.writeToFile env path content (Some mode)))
      = withEntry state "write_to_file: encountered error").
Proof.
  intros Hcode. split; [|split].
  - intros H. unfold Tool.readFile. rewrite (tryCatch_failed _ _ _ _ H).
    apply (recorded_note state earlier "read_file"); try reflexivity.
    destruct (Tool.codeIs error "ENOENT");
      [|simpl in Hcode; rewrite Hcode]; apply HasErrorMarker_prefix.
  - intros H. unfold Tool.listFiles. rewrite (tryCatch_failed _ _ _ _ H).
    apply (recorded_note state earlier "list_files"); try reflexivity.
    destruct (Tool.codeIs error "ENOENT");
      [|simpl in Hcode; rewrite Hcode]; apply HasErrorMarker_prefix.
  - intros Hacc H. unfold Tool.writeToFile.
    rewrite (tryCatch_failed _ _ _ _ H), Hacc.
    apply (recorded_note state earlier "write_to_file"); try reflexivity.
    apply HasErrorMarker_prefix.
Qed.

Lemma includes_skip (c a : ascii) (needle s : string) :
  c <> a ->
  includes (String c s) (String a needle) = includes s (String a needle).
Proof.
  intros Hne.
  change (includes (String c s) (String a needle))
    with (String.prefix (String a needle) (String c s)
          || includes s (String a needle)).
  simpl. destruct (ascii_dec a c) as [->|_]; [congruence | reflexivity].
Qed.

(** The markers inside a message that quotes a path: they are in the text
    before the path, in the path, or in the text after it. *)
Lemma Substring_quoted (needle before path after : string) :
  ~ Occurs (ascii_of_nat 34) needle ->
  Substring needle (before ++ dq ++ path ++ dq ++ after) <->
  Substring needle before \/ Substring needle path \/ Substring needle after.
Proof.
  intros Hq.
  change (before ++ dq ++ path ++ dq ++ after)
    with (before ++ String (ascii_of_nat 34)
                      (path ++ String (ascii_of_nat 34) after)).
  rewrite (Substring_split_at_char needle before _ _ Hq).
  rewrite (Substring_split_at_char needle path _ _ Hq). tauto.
Qed.

Lemma markers_have_no_quote :
  ~ Occurs (ascii_of_nat 34) "Error:"
  /\ ~ Occurs (ascii_of_nat 34) "does not exist".
Proof.
  split; intros H; apply includes_char in H; discriminate H.
Qed.

(** The message of a failure the tool does not name has a marker only where
    the path or the message of the error has one. *)
Lemma unnamed_failure_markers (verb path text : string) :
  includes verb "Error:" = false ->
  includes verb "does not exist" = false ->
  HasErrorMarker (verb ++ dq ++ path ++ dq ++ ": " ++ text) ->
  HasErrorMarker path \/ HasErrorMarker text.
Proof.
  intros He Hd. destruct markers_have_no_quote as [Hq1 Hq2].
  assert (Htail : forall needleTail a,
            a <> ":"%char -> a <> " "%char ->
            Substring (String a needleTail) (": " ++ text) ->
            Substring (String a needleTail) text).
  { intros needleTail a Ha1 Ha2 H. apply includes_Substring in H.
    apply includes_Substring.
    change (": " ++ text) with (String ":" (String " " text)) in H.
    rewrite !includes_skip in H by congruence. exact H. }
  intros [H|H].
  - apply (Substring_quoted _ _ _ _ Hq1) in H. destruct H as [H|[H|H]].
    + apply includes_Substring in H. congruence.
    + left. now left.
    + right. left. apply Htail; [discriminate | discriminate | exact H].
  - apply (Substring_quoted _ _ _ _ Hq2) in H. destruct H as [H|[H|H]].
    + apply includes_Substring in H. congruence.
    + left. now right.
    + right. right. apply Htail; [discriminate | discriminate | exact H].
Qed.

(** A failure that the tools do not name, any error but a missing entry or a
    denied permission for [read_file] and [list_files], any error but a
    denied permission for [write_to_file], reaches the history as a success
    unless the path or the message of the error happens to contain a
    marker. *)
Theorem unnamed_failures_are_recorded_as_successes
    (env : Tool.Env) (state : State) (earlier : list ToolCall)
    (path content : string) (pattern : option string) (mode : Tool.Mode)
    (error : Tool.JsError) :
  Tool.codeIs error "EACCES" = false ->
  ~ HasErrorMarker path ->
  ~ HasErrorMarker (Tool.message error) ->
  (Tool.codeIs error "ENOENT" = false ->
   snd (Tool.readFile_try env path) = inl error ->
   recorded state earlier "read_file" (snd (Tool.readFile env path))
   = withEntry state "read_file: completed successfully")
  /\ (Tool.codeIs error "ENOENT" = false ->
      snd (Tool.listFiles_try env path pattern) = inl error ->
      recorded state earlier "list_files"
        (snd (Tool.listFiles env path pattern))
      = withEntry state "list_files: completed successfully")
  /\ (snd (Tool.writeToFile_try env path content mode) = inl error ->
      recorded state earlier "write_to_file"
        (snd (Tool.writeToFile env path content (Some mode)))
      = withEntry state "write_to_file: completed successfully").
Proof.
  intros Hacc Hp Hm. split; [|split].
  - intros Hno H. unfold Tool.readFile.
    rewrite (tryCatch_failed _ _ _ _ H), Hno, Hacc.
    apply (recorded_note state earlier "read_file"); try reflexivity.
    intros Hmark. apply unnamed_failure_markers in Hmark; [tauto | |];
      reflexivity.
  - intros Hno H. unfold Tool.listFiles.
    rewrite (tryCatch_failed _ _ _ _ H), Hno, Hacc.
    apply (recorded_note state earlier "list_files"); try reflexivity.
    intros Hmark. apply unnamed_failure_markers in Hmark; [tauto | |];
      reflexivity.
  - intros H. unfold Tool.writeToFile.
    rewrite (tryCatch_failed _ _ _ _ H), Hacc.
    apply (recorded_note state earlier "write_to_file"); try reflexivity.
    intros Hmark. apply unnamed_failure_markers in Hmark; [tauto | |];
      reflexivity.
Qed.

Lemma substring16_all (n : nat) (s : string) :
  length16 s <= n -> substring16 n s = s.
Proof.
  revert n. induction s as [|b s IH]; intros n H; simpl in *; [reflexivity|].
  destruct (Nat.eqb_spec (units b) 0) as [E|E].
  - rewrite IH by lia. reflexivity.
  - destruct (Nat.leb_spec (units b) n) as [L|L]; [|lia].
    rewrite IH by lia. reflexivity.
Qed.

Lemma readFile_returns (env : Tool.Env) (path content : string) :
  Tool.fs_access env (Tool.path_resolve env path) Tool.R_OK = None ->
  Tool.fs_readFile env (Tool.path_resolve env path) = inr content ->
  snd (Tool.readFile env path)
  = "File: " ++ path ++ " ("
    ++ Tool.decimal (List.length (Tool.split Tool.lf content)) ++ " lines, "
    ++ Tool.decimal (length16 content) ++ " characters)"
    ++ String Tool.lf
         (if (5000 <? length16 content)%nat
          then substring16 5000 content
               ++ Tool.truncationNotice (length16 content)
          else content).
Proof.
  intros Hacc Hread.
  unfold Tool.readFile, Tool.readFile_try, Tool.bind, Tool.perform,
    Tool.request, Tool.ret, Tool.tryCatch.
  rewrite Hacc, Hread. reflexivity.
Qed.

(** A file that is read without any failure is still recorded as an error
    when one of the markers stands in its first 5000 UTF-16 code units, the
    part of the text that the result shows: the note in the history speaks of
    the text of the file, not of the read. *)
Theorem read_of_text_with_a_marker_is_recorded_as_error
    (env : Tool.Env) (state : State) (earlier : list ToolCall)
    (path content : string) :
  Tool.fs_access env (Tool.path_resolve env path) Tool.R_OK = None ->
  Tool.fs_readFile env (Tool.path_resolve env path) = inr content ->
  HasErrorMarker (substring16 5000 content) ->
  recorded state earlier "read_file" (snd (Tool.readFile env path))
  = withEntry state "read_file: encountered error".
Proof.
  intros Hacc Hread Hmark.
  apply (recorded_note state earlier "read_file"); try reflexivity.
  rewrite (readFile_returns env path content Hacc Hread).
  assert (Hshown : forall needle,
            Substring needle (substring16 5000 content) ->
            Substring needle
              (if (5000 <? length16 content)%nat
               then substring16 5000 content
                    ++ Tool.truncationNotice (length16 content)
               else content)).
  { intros needle H. destruct (5000 <? length16 content)%nat eqn:E.
    - now apply Substring_app_l.
    - apply Nat.ltb_ge in E. now rewrite (substring16_all _ _ E) in H. }
  assert (Hall : forall needle,
            Substring needle (substring16 5000 content) ->
            Substring needle
              ("File: " ++ path ++ " ("
               ++ Tool.decimal (List.length (Tool.split Tool.lf content))
               ++ " lines, "
               ++ Tool.decimal (length16 content) ++ " characters)"
               ++ String Tool.lf
                    (if (5000 <? length16 content)%nat
                     then substring16 5000 content
                          ++ Tool.truncationNotice (length16 content)
                     else content))).
  { intros needle H. do 7 apply Substring_app_r.
    match goal with
    | |- Substring _ (String ?c ?s) =>
        change (String c s) with (String c EmptyString ++ s)
    end.
    apply Substring_app_r. now apply Hshown. }
  destruct Hmark as [H|H]; [left | right]; now apply Hall.
Qed.

(** ** [write_to_file] and the file that was there *)

(** Case analysis on the outcome of a call to the file system that the goal
    depends on. *)
Ltac fs_outcome :=
  match goal with
  | |- context [Tool.fs_mkdir ?e ?d] =>
      destruct (Tool.fs_mkdir e d) eqn:?Hmkdir
  | |- context [Tool.fs_access ?e ?p ?m] =>
      destruct (Tool.fs_access e p m) eqn:?Haccess
  | |- context [Tool.fs_copyFile ?e ?p ?q] =>
      destruct (Tool.fs_copyFile e p q) eqn:?Hcopy
  | |- context [Tool.fs_writeFile ?e ?p ?c] =>
      destruct (Tool.fs_writeFile e p c) eqn:?Hwrite
  | |- context [Tool.fs_appendFile ?e ?p ?c] =>
      destruct (Tool.fs_appendFile e p c) eqn:?Happend
  end.

(** In the mode that overwrites, a file that exists is written only after it
    was copied to its backup, and the copy went through: if the copy fails
    nothing is written.  In the mode that appends the file is neither copied
    nor written anew. *)
Theorem writeToFile_backs_up_before_it_overwrites
    (env : Tool.Env) (filepath content : string) (mode : option Tool.Mode) :
  let fullPath := Tool.path_resolve env filepath in
  let backup := Tool.backupPathOf env fullPath in
  let events := fst (Tool.writeToFile env filepath content mode) in
  (Tool.fs_access env fullPath Tool.F_OK = None ->
   forall path text before after,
     events = List.app before (Tool.FsWriteFile path text :: after) ->
     path = fullPath /\ text = content
     /\ In (Tool.FsCopyFile fullPath backup) before
     /\ Tool.fs_copyFile env fullPath backup = None)
  /\ (mode = Some Tool.append ->
      forallb (fun event => negb (isWriteFile event || isCopyFile event))
        events = true).
Proof.
  cbv zeta. split.
  - intros Hacc path text before after.
    unfold Tool.writeToFile, Tool.writeToFile_try, Tool.bind, Tool.perform,
      Tool.attempt, Tool.log, Tool.ret, Tool.tryCatch.
    rewrite Hacc.
    destruct mode as [[|]|]; repeat fs_outcome;
      cbn [map List.app fst snd]; intros E;
      repeat (destruct before as [|? before];
              [try discriminate E
              |cbn [List.app] in E; injection E as <- E]);
      try (destruct before; discriminate E);
      try (injection E as <- <- <-;
           repeat split; try reflexivity; try assumption;
           cbn; tauto).
  - intros ->.
    unfold Tool.writeToFile, Tool.writeToFile_try, Tool.bind, Tool.perform,
      Tool.attempt, Tool.log, Tool.ret, Tool.tryCatch.
    repeat fs_outcome; reflexivity.
Qed.

(** ** [list_files] *)

Lemma endsWith_unfold (s p : string) :
  Tool.endsWith s p
  = (s =? p) || match s with
                | EmptyString => false
                | String _ s' => Tool.endsWith s' p
                end.
Proof. destruct s; reflexivity. Qed.

Lemma endsWith_lastChar (s p : string) :
  p <> EmptyString -> Tool.endsWith s p = true -> lastChar s = lastChar p.
Proof.
  intros Hp. induction s as [|c s IH]; rewrite endsWith_unfold.
  - rewrite orb_false_r. intros H. apply String.eqb_eq in H. congruence.
  - intros H. apply orb_prop in H. destruct H as [H|H].
    + apply String.eqb_eq in H. now rewrite H.
    + destruct s as [|d s].
      * rewrite endsWith_unfold, orb_false_r in H.
        apply String.eqb_eq in H. congruence.
      * rewrite <- (IH H). reflexivity.
Qed.

Lemma lastChar_snoc (s : string) (c : ascii) :
  lastChar (s ++ String c EmptyString) = Some c.
Proof.
  induction s as [|d s IH]; [reflexivity|].
  simpl. rewrite IH. destruct (s ++ String c EmptyString) eqn:E;
    [destruct s; discriminate E | reflexivity].
Qed.

Lemma directory_is_no_typescript_file (name : string) :
  Tool.endsWith (name ++ "/") ".ts" || Tool.endsWith (name ++ "/") ".tsx"
  = false.
Proof.
  apply orb_false_intro; apply not_true_is_false; intros H;
    apply endsWith_lastChar in H; try discriminate;
    rewrite lastChar_snoc in H; discriminate H.
Qed.

Lemma insert_Permutation (compare : string -> string -> comparison)
    (x : string) (sorted : list string) :
  Permutation (Tool.insert compare x sorted) (x :: sorted).
Proof.
  induction sorted as [|y sorted IH]; simpl; [reflexivity|].
  destruct (compare x y); try reflexivity.
  rewrite IH. apply perm_swap.
Qed.

Lemma sort_Permutation (compare : string -> string -> comparison)
    (files : list string) :
  Permutation (Tool.sort compare files) files.
Proof.
  induction files as [|x files IH]; simpl; [reflexivity|].
  rewrite insert_Permutation. now constructor.
Qed.

Lemma insert_Forall (P : string -> Prop)
    (compare : string -> string -> comparison) (x : string)
    (sorted : list string) :
  P x -> Forall P sorted -> Forall P (Tool.insert compare x sorted).
Proof.
  intros Hx H.
  apply (Permutation_Forall (Permutation_sym (insert_Permutation compare x sorted))).
  now constructor.
Qed.

Lemma insert_DirectoriesFirst (env : Tool.Env) (x : string)
    (sorted : list string) :
  DirectoriesFirst sorted ->
  DirectoriesFirst (Tool.insert (Tool.compareFiles env) x sorted).
Proof.
  intros (directories & others & -> & Hd & Ho).
  induction Hd as [|d directories Hdir Hd IH].
  - cbn [List.app]. destruct (Tool.endsWith x "/") eqn:Hx.
    + destruct others as [|o others]; simpl.
      * exists [x], []. repeat constructor. exact Hx.
      * inversion Ho as [|? ? Hfile Ho']; subst.
        unfold Tool.compareFiles. rewrite Hx, Hfile. simpl.
        exists [x], (o :: others). repeat constructor; assumption.
    + exists [], (Tool.insert (Tool.compareFiles env) x others).
      repeat constructor. now apply insert_Forall.
  - cbn [List.app Tool.insert].
    destruct IH as (directories' & others' & E & Hd' & Ho').
    destruct (Tool.compareFiles env x d) eqn:Hc.
    + exists (x :: d :: directories), others.
      split; [reflexivity|]. split; [|exact Ho].
      unfold Tool.compareFiles in Hc. rewrite Hdir in Hc.
      destruct (Tool.endsWith x "/") eqn:Hx; [|discriminate Hc].
      repeat constructor; assumption.
    + exists (x :: d :: directories), others.
      split; [reflexivity|]. split; [|exact Ho].
      unfold Tool.compareFiles in Hc. rewrite Hdir in Hc.
      destruct (Tool.endsWith x "/") eqn:Hx; [|discriminate Hc].
      repeat constructor; assumption.
    + rewrite E. exists (d :: directories'), others'.
      split; [reflexivity|]. split; [|exact Ho'].
      constructor; assumption.
Qed.

Lemma sort_DirectoriesFirst (env : Tool.Env) (files : list string) :
  DirectoriesFirst (Tool.sort (Tool.compareFiles env) files).
Proof.
  induction files as [|x files IH]; simpl.
  - exists [], []. repeat constructor.
  - now apply insert_DirectoriesFirst.
Qed.

(** Whatever the pattern, a listing that is produced shows entries of the
    directory only, each as often as the filter kept it, with the names that
    end in a slash before all others; without a pattern, and with the empty
    pattern, it shows every entry. *)
Theorem listFiles_lists_entries_directories_first
    (env : Tool.Env) (pattern : option string) (items : list Tool.Dirent)
    (events : list Tool.Event) (files : list string) :
  Tool.listFiles_files env pattern items = (events, inr files) ->
  DirectoriesFirst files
  /\ (exists keep, Permutation files (filter keep (map displayName items)))
  /\ (Tool.given pattern = None ->
      Permutation files (map displayName items)).
Proof.
  unfold Tool.listFiles_files, Tool.bind, Tool.ret.
  fold displayName.
  change (map (fun item : Tool.Dirent =>
                 if Tool.isDirectory item
                 then Tool.dirent_name item ++ "/"
                 else Tool.dirent_name item) items)
    with (map displayName items).
  destruct (Tool.given pattern) as [p|].
  - destruct (includes p ".ts" || includes p "typescript").
    + intros H. injection H as _ <-.
      split; [apply sort_DirectoriesFirst|]. split; [|discriminate].
      eexists. apply sort_Permutation.
    + destruct (Tool.startsWith p "*").
      * destruct (Tool.RegExp env (Tool.replaceStars p)) as [error|test];
          [discriminate|].
        intros H. injection H as _ <-.
        split; [apply sort_DirectoriesFirst|]. split; [|discriminate].
        eexists. apply sort_Permutation.
      * intros H. injection H as _ <-.
        split; [apply sort_DirectoriesFirst|]. split; [|discriminate].
        eexists. apply sort_Permutation.
  - intros H. injection H as _ <-.
    split; [apply sort_DirectoriesFirst|]. split.
    + exists (fun _ => true). rewrite sort_Permutation.
      clear. induction (map displayName items) as [|x l IH]; simpl;
        [reflexivity | now constructor].
    + intros _. apply sort_Permutation.
Qed.

Lemma filter_typescript (items : list Tool.Dirent) :
  filter (fun file => Tool.endsWith file ".ts" || Tool.endsWith file ".tsx")
    (map displayName items)
  = map Tool.dirent_name
      (filter (fun item =>
                 negb (Tool.isDirectory item)
                 && (Tool.endsWith (Tool.dirent_name item) ".ts"
                     || Tool.endsWith (Tool.dirent_name item) ".tsx"))
         items).
Proof.
  induction items as [|[name [|]] items IH]; [reflexivity| |];
    cbn [map filter Tool.isDirectory Tool.dirent_name negb andb].
  - change (displayName (Tool.mkDirent name true)) with (name ++ "/").
    rewrite directory_is_no_typescript_file. exact IH.
  - change (displayName (Tool.mkDirent name false)) with name.
    destruct (Tool.endsWith name ".ts" || Tool.endsWith name ".tsx");
      cbn [map Tool.dirent_name]; now rewrite IH.
Qed.

(** A pattern that contains .ts or typescript, whatever else it says, lists
    the files whose names end in .ts or .tsx and nothing else: no directory
    is ever shown under such a pattern, and the regular expression of the
    pattern is never built. *)
Theorem listFiles_typescript_pattern_lists_only_typescript_files
    (env : Tool.Env) (pattern : string) (items : list Tool.Dirent) :
  includes pattern ".ts" || includes pattern "typescript" = true ->
  exists files,
    Tool.listFiles_files env (Some pattern) items = ([], inr files)
    /\ Permutation files
         (map Tool.dirent_name
            (filter (fun item =>
                       negb (Tool.isDirectory item)
                       && (Tool.endsWith (Tool.dirent_name item) ".ts"
                           || Tool.endsWith (Tool.dirent_name item) ".tsx"))
               items)).
Proof.
  intros Hts.
  assert (Hgiven : Tool.given (Some pattern) = Some pattern).
  { destruct pattern; [discriminate Hts | reflexivity]. }
  unfold Tool.listFiles_files, Tool.bind, Tool.ret. rewrite Hgiven, Hts.
  eexists. split; [reflexivity|].
  rewrite sort_Permutation.
  change (map (fun item : Tool.Dirent =>
                 if Tool.isDirectory item
                 then Tool.dirent_name item ++ "/"
                 else Tool.dirent_name item) items)
    with (map displayName items).
  now rewrite filter_typescript.
Qed.

(** ** The prompt *)

Lemma format_other_char (c : ascii) (template : string) (args : list string) :
  c <> "%"%char ->
  format (String c template) args = String c (format template args).
Proof.
  intros Hc.
  destruct args;
    destruct c as [[] [] [] [] [] [] [] []]; try reflexivity;
    exfalso; apply Hc; reflexivity.
Qed.

Lemma format_placeholder (piece rest a : string) (args : list string) :
  ~ Occurs "%" piece ->
  format (piece ++ "%s" ++ rest) (a :: args)
  = piece ++ a ++ format rest args.
Proof.
  intros Hp. induction piece as [|c piece IH]; [reflexivity|].
  change (String c piece ++ "%s" ++ rest)
    with (String c (piece ++ "%s" ++ rest)).
  rewrite format_other_char.
  - rewrite IH; [reflexivity|].
    intros H. apply Hp. now apply Occurs_later.
  - intros ->. apply Hp. apply Occurs_here.
Qed.

Lemma format_no_placeholder (piece : string) :
  ~ Occurs "%" piece -> format piece [] = piece.
Proof.
  intros Hp. induction piece as [|c piece IH]; [reflexivity|].
  rewrite format_other_char.
  - rewrite IH; [reflexivity|].
    intros H. apply Hp. now apply Occurs_later.
  - intros ->. apply Hp. apply Occurs_here.
Qed.

(** As long as the user is not satisfied, the prompt is the template with its
    three placeholders replaced, in this order, by the task, by the history
    joined with the separator of [part_002], and by the hint.  Each is
    inserted as it is: a
    placeholder or any other text inside the task or the history is not
    expanded and takes nothing from the arguments that follow. *)
Theorem prompt_inserts_task_history_and_hint_as_they_are :
  exists head middle1 middle2 tail,
    classificationPromptTemplate
    = head ++ "%s" ++ middle1 ++ "%s" ++ middle2 ++ "%s" ++ tail
    /\ forall request state runtime,
         isUserSatisfied state runtime = false ->
         systemPrompt (modifyModelRequest request state runtime)
         = head ++ taskInPrompt state
           ++ middle1 ++ join historySeparator (contextHistory state)
           ++ middle2 ++ hintInPrompt state ++ tail.
Proof.
  remember (String.substring 0 112 classificationPromptTemplate) as head.
  remember (String.substring 114 20 classificationPromptTemplate) as middle1.
  remember (String.substring 136 1376 classificationPromptTemplate) as middle2.
  remember (String.substring 1514 96 classificationPromptTemplate) as tail.
  assert (E : classificationPromptTemplate
              = head ++ "%s" ++ middle1 ++ "%s" ++ middle2 ++ "%s" ++ tail).
  { subst. vm_compute. reflexivity. }
  assert (Hh : ~ Occurs "%" head).
  { subst. intros H. apply includes_char in H. vm_compute in H. discriminate H. }
  assert (H1 : ~ Occurs "%" middle1).
  { subst. intros H. apply includes_char in H. vm_compute in H. discriminate H. }
  assert (H2 : ~ Occurs "%" middle2).
  { subst. intros H. apply includes_char in H. vm_compute in H. discriminate H. }
  assert (Ht : ~ Occurs "%" tail).
  { subst. intros H. apply includes_char in H. vm_compute in H. discriminate H. }
  clear Heqhead Heqmiddle1 Heqmiddle2 Heqtail.
  exists head, middle1, middle2, tail. split; [exact E|].
  intros request state runtime Hs.
  unfold modifyModelRequest. rewrite Hs. cbn [systemPrompt]. rewrite E.
  rewrite !format_placeholder by assumption.
  rewrite (format_no_placeholder tail Ht).
  unfold taskInPrompt, hintInPrompt.
  destruct (currentTask state) as [[|c t]|]; reflexivity.
Qed.

(** ** The replies of the human, from the prompt loop to the session *)

(** The task of the session changes in one step only when the last call is a
    [new_task] whose result contains the words NEW TASK CONFIRMED: or an
    [attempt_completion] whose result contains the small letter y; every
    other step leaves it as it was. *)
Theorem task_changes_only_on_confirmation_or_completion
    (state : State) (runtime : Runtime) :
  currentTask (applyUpdate state (afterModel state runtime))
  <> currentTask state ->
  (exists resultText,
     at_last (toolCalls runtime) = Some (newTaskOutcome resultText)
     /\ Substring "NEW TASK CONFIRMED:" resultText)
  \/ (exists resultText,
        at_last (toolCalls runtime) = Some (completion resultText)
        /\ Occurs "y" resultText).
Proof.
  unfold afterModel, afterModel_new_task, nameIs, nameOf, resultOf.
  destruct (at_last (toolCalls runtime)) as [[n r]|];
    [|simpl; congruence].
  cbn [option_map name result].
  set (res := match r with Some r0 => r0 | None => EmptyString end).
  destruct (n =? "new_task") eqn:Hn.
  - assert (Hc : (n =? "attempt_completion") = false).
    { apply String.eqb_eq in Hn. subst n. reflexivity. }
    rewrite Hc. cbn [andb].
    destruct (includes res "NEW TASK CONFIRMED:") eqn:Hp.
    + intros _. left. destruct r as [r|]; [|discriminate Hp].
      exists r. apply String.eqb_eq in Hn. subst n.
      split; [reflexivity|]. now apply includes_Substring.
    + destruct (includes res "TASK FEEDBACK:");
        [destruct (exec feedbackPattern res)|]; simpl; congruence.
  - destruct (n =? "attempt_completion") eqn:Hc; cbn [andb];
      [|simpl; congruence].
    destruct (includes res "y") eqn:Hy; [|simpl; congruence].
    intros _. right. destruct r as [r|]; [|discriminate Hy].
    exists r. apply String.eqb_eq in Hc. subst n.
    split; [reflexivity|]. now apply (includes_char r "y"%char).
Qed.

Lemma task_changes_only_on_confirmation_or_completion_witness :
  currentTask (applyUpdate workingState
                 (afterModel workingState (runtimeOf [] (completion "yes"))))
  <> currentTask workingState
  /\ ((exists resultText,
         at_last (toolCalls (runtimeOf [] (completion "yes")))
         = Some (newTaskOutcome resultText)
         /\ Substring "NEW TASK CONFIRMED:" resultText)
      \/ (exists resultText,
            at_last (toolCalls (runtimeOf [] (completion "yes")))
            = Some (completion resultText)
            /\ Occurs "y" resultText)).
Proof.
  assert (H : currentTask
                (applyUpdate workingState
                   (afterModel workingState (runtimeOf [] (completion "yes"))))
              <> currentTask workingState) by discriminate.
  split; [exact H|].
  exact (task_changes_only_on_confirmation_or_completion
           workingState (runtimeOf [] (completion "yes")) H).
Defined.

Lemma response_loop_source (label : string) (replies : list string)
    (response : string) (later : list string) :
  response_loop label replies = Some (response, later) ->
  response = "N" \/ In response replies.
Proof.
  induction replies as [|reply replies IH]; simpl; [discriminate|].
  destruct (negb (truthy (trim reply))).
  - destruct (includes label "y/N").
    + intros H. injection H as <- _. now left.
    + intros H. apply IH in H. tauto.
  - intros H. injection H as <- _. right. now left.
Qed.

(** The result of [new_task] is the human's reply to the question whether
    the task is correct.  Unless a reply spells out NEW TASK CONFIRMED:, the
    call sets no task, whatever the description of the task was and whether
    the human agreed or not: the task stays as it was and one entry is
    added to the history. *)
Theorem answering_the_task_confirmation_sets_no_task
    (state : State) (earlier : list ToolCall)
    (taskDescription reasoning : string) (replies : list string)
    (response : string) (later : list string) :
  response_loop newTaskLabel replies = Some (response, later) ->
  Forall (fun reply => ~ Substring "NEW TASK CONFIRMED:" reply) replies ->
  exists entry,
    recorded state earlier "new_task"
      (snd (Tool.newTask taskDescription reasoning response))
    = withEntry state entry.
Proof.
  intros Hr Hall.
  assert (Hp : includes response "NEW TASK CONFIRMED:" = false).
  { apply not_true_is_false. intros H. apply includes_Substring in H.
    apply response_loop_source in Hr. destruct Hr as [->|Hin].
    - apply includes_Substring in H. discriminate H.
    - rewrite Forall_forall in Hall. exact (Hall _ Hin H). }
  unfold recorded, Tool.newTask, Tool.interrupt. cbn [snd].
  change (outcome "new_task" response) with (newTaskOutcome response).
  rewrite afterModel_new_task_call. unfold afterModel_new_task.
  rewrite Hp.
  destruct (includes response "TASK FEEDBACK:");
    [destruct (exec feedbackPattern response)|];
    eexists; reflexivity.
Qed.

Lemma answering_the_task_confirmation_sets_no_task_witness :
  response_loop newTaskLabel ["yes"; "later"] = Some ("yes", ["later"])
  /\ Forall (fun reply => ~ Substring "NEW TASK CONFIRMED:" reply)
       ["yes"; "later"]
  /\ exists entry,
       recorded emptyState [] "new_task"
         (snd (Tool.newTask "fix bug" "the user asked for it" "yes"))
       = withEntry emptyState entry.
Proof.
  assert (Hr : response_loop newTaskLabel ["yes"; "later"]
               = Some ("yes", ["later"])) by reflexivity.
  assert (Hall : Forall (fun reply => ~ Substring "NEW TASK CONFIRMED:" reply)
                   ["yes"; "later"]).
  { repeat constructor; intros H; apply includes_Substring in H;
      discriminate H. }
  split; [exact Hr|]. split; [exact Hall|].
  exact (answering_the_task_confirmation_sets_no_task emptyState []
           "fix bug" "the user asked for it" ["yes"; "later"] "yes" ["later"]
           Hr Hall).
Defined.





(** ** The properties of the tools in the sample world *)

Lemma named_failures_are_recorded_as_errors_witness :
  Tool.codeIs noEntry "ENOENT" || Tool.codeIs noEntry "EACCES" = true
  /\ snd (Tool.readFile_try sampleEnv "missing.ts") = inl noEntry
  /\ recorded workingState [] "read_file"
       (snd (Tool.readFile sampleEnv "missing.ts"))
     = withEntry workingState "read_file: encountered error".
Proof.
  assert (Hc : Tool.codeIs noEntry "ENOENT" || Tool.codeIs noEntry "EACCES"
               = true) by reflexivity.
  assert (Hr : snd (Tool.readFile_try sampleEnv "missing.ts") = inl noEntry)
    by reflexivity.
  split; [exact Hc|]. split; [exact Hr|].
  exact (proj1 (named_failures_are_recorded_as_errors sampleEnv workingState
                  [] "missing.ts" EmptyString None Tool.overwrite noEntry Hc)
           Hr).
Defined.

Lemma isADirectory_has_no_marker : ~ HasErrorMarker (Tool.message isADirectory).
Proof.
  intros H. apply HasErrorMarker_includes in H. discriminate H.
Qed.

Lemma src_has_no_marker : ~ HasErrorMarker "src".
Proof.
  intros H. apply HasErrorMarker_includes in H. discriminate H.
Qed.

Lemma unnamed_failures_are_recorded_as_successes_witness :
  Tool.codeIs isADirectory "EACCES" = false
  /\ Tool.codeIs isADirectory "ENOENT" = false
  /\ snd (Tool.readFile_try sampleEnv "src") = inl isADirectory
  /\ recorded workingState [] "read_file"
       (snd (Tool.readFile sampleEnv "src"))
     = withEntry workingState "read_file: completed successfully".
Proof.
  assert (Hr : snd (Tool.readFile_try sampleEnv "src") = inl isADirectory)
    by reflexivity.
  split; [reflexivity|]. split; [reflexivity|]. split; [exact Hr|].
  exact (proj1 (unnamed_failures_are_recorded_as_successes sampleEnv
                  workingState [] "src" EmptyString None Tool.overwrite
                  isADirectory eq_refl src_has_no_marker
                  isADirectory_has_no_marker)
           eq_refl Hr).
Defined.

Lemma read_of_text_with_a_marker_is_recorded_as_error_witness :
  Tool.fs_readFile sampleEnv (Tool.path_resolve sampleEnv "accented.ts")
  = inr accentedText
  /\ HasErrorMarker (substring16 5000 accentedText)
  /\ recorded workingState [] "read_file"
       (snd (Tool.readFile sampleEnv "accented.ts"))
     = withEntry workingState "read_file: encountered error".
Proof.
  assert (Hm : HasErrorMarker (substring16 5000 accentedText))
    by (apply HasErrorMarker_includes; vm_compute; reflexivity).
  split; [reflexivity|]. split; [exact Hm|].
  exact (read_of_text_with_a_marker_is_recorded_as_error sampleEnv
           workingState [] "accented.ts" accentedText eq_refl eq_refl Hm).
Defined.

Lemma writeToFile_backs_up_before_it_overwrites_witness :
  fst (Tool.writeToFile sampleEnv "a.ts" "export {}" None)
  = [Tool.ConsoleLog "✏️  WRITING: a.ts (overwrite)";
     Tool.ConsoleLog "📝 Content preview: export {}";
     Tool.FsMkdir "/repo";
     Tool.FsAccess "/repo/a.ts" Tool.F_OK;
     Tool.FsCopyFile "/repo/a.ts" "/repo/a.ts.backup.1700000000000";
     Tool.ConsoleLog "📋 Created backup: /repo/a.ts.backup.1700000000000";
     Tool.FsWriteFile "/repo/a.ts" "export {}"]
  /\ In (Tool.FsCopyFile "/repo/a.ts" "/repo/a.ts.backup.1700000000000")
       [Tool.ConsoleLog "✏️  WRITING: a.ts (overwrite)";
        Tool.ConsoleLog "📝 Content preview: export {}";
        Tool.FsMkdir "/repo";
        Tool.FsAccess "/repo/a.ts" Tool.F_OK;
        Tool.FsCopyFile "/repo/a.ts" "/repo/a.ts.backup.1700000000000";
        Tool.ConsoleLog "📋 Created backup: /repo/a.ts.backup.1700000000000"].
Proof.
  assert (E : fst (Tool.writeToFile sampleEnv "a.ts" "export {}" None)
              = List.app
                  [Tool.ConsoleLog "✏️  WRITING: a.ts (overwrite)";
                   Tool.ConsoleLog "📝 Content preview: export {}";
                   Tool.FsMkdir "/repo";
                   Tool.FsAccess "/repo/a.ts" Tool.F_OK;
                   Tool.FsCopyFile "/repo/a.ts"
                     "/repo/a.ts.backup.1700000000000";
                   Tool.ConsoleLog
                     "📋 Created backup: /repo/a.ts.backup.1700000000000"]
                  (Tool.FsWriteFile "/repo/a.ts" "export {}" :: []))
    by (vm_compute; reflexivity).
  split; [exact E|].
  exact (proj1 (proj2 (proj2
           (proj1 (writeToFile_backs_up_before_it_overwrites sampleEnv "a.ts"
                     "export {}" None)
              eq_refl _ _ _ _ E)))).
Defined.

Lemma listFiles_lists_entries_directories_first_witness :
  Tool.listFiles_files sampleEnv None
    [Tool.mkDirent "index.ts" false; Tool.mkDirent "lib" true;
     Tool.mkDirent "app.tsx" false]
  = ([], inr ["lib/"; "app.tsx"; "index.ts"])
  /\ DirectoriesFirst ["lib/"; "app.tsx"; "index.ts"].
Proof.
  assert (E : Tool.listFiles_files sampleEnv None
                [Tool.mkDirent "index.ts" false; Tool.mkDirent "lib" true;
                 Tool.mkDirent "app.tsx" false]
              = ([], inr ["lib/"; "app.tsx"; "index.ts"]))
    by (vm_compute; reflexivity).
  split; [exact E|].
  exact (proj1 (listFiles_lists_entries_directories_first sampleEnv None
                  _ _ _ E)).
Defined.

Lemma listFiles_typescript_pattern_lists_only_typescript_files_witness :
  includes "*.tsx" ".ts" || includes "*.tsx" "typescript" = true
  /\ exists files,
       Tool.listFiles_files sampleEnv (Some "*.tsx")
         [Tool.mkDirent "index.ts" false; Tool.mkDirent "lib" true;
          Tool.mkDirent "app.tsx" false; Tool.mkDirent "notes.md" false;
          Tool.mkDirent "types.ts" true]
       = ([], inr files)
       /\ Permutation files ["index.ts"; "app.tsx"].
Proof.
  split; [reflexivity|].
  exact (listFiles_typescript_pattern_lists_only_typescript_files sampleEnv
           "*.tsx"
           [Tool.mkDirent "index.ts" false; Tool.mkDirent "lib" true;
            Tool.mkDirent "app.tsx" false; Tool.mkDirent "notes.md" false;
            Tool.mkDirent "types.ts" true]
           eq_refl).
Defined.

(** ** What [read_file] reports and shows *)

Lemma split_length (sep : ascii) (s : string) :
  List.length (Tool.split sep s) = S (countChar sep s).
Proof.
  induction s as [|c s IH]; [reflexivity|].
  simpl. destruct (Ascii.eqb c sep); simpl.
  - now rewrite IH.
  - destruct (Tool.split sep s); simpl in *; [discriminate IH | exact IH].
Qed.

Lemma units_le_2 (b : ascii) : units b <= 2.
Proof.
  unfold units.
  destruct (nat_of_ascii b <? 128)%nat; [lia|].
  destruct (nat_of_ascii b <? 192)%nat; [lia|].
  destruct (nat_of_ascii b <? 240)%nat; lia.
Qed.

Lemma units_continuation (n : nat) :
  128 <= n < 192 -> units (ascii_of_nat n) = 0.
Proof.
  intros H. unfold units. rewrite nat_ascii_embedding by lia.
  destruct (Nat.ltb_spec n 128); [lia|].
  destruct (Nat.ltb_spec n 192); [reflexivity | lia].
Qed.

Lemma length16_highSurrogate (b : ascii) (rest : string) :
  length16 (highSurrogate b rest) = 1.
Proof.
  unfold highSurrogate, bytes.
  cbn [map string_of_list_ascii length16].
  match goal with
  | |- units _ + (units (ascii_of_nat ?x) + (units (ascii_of_nat ?y) + 0)) = 1 =>
      rewrite (units_continuation x), (units_continuation y)
  end; [reflexivity | |].
  - pose proof (Nat.mod_upper_bound (byteAt 0 rest) 16).
    pose proof (Nat.mod_upper_bound (byteAt 1 rest) 64).
    assert ((byteAt 1 rest mod 64) / 16 <= 3)
      by (apply Nat.lt_succ_r, Nat.Div0.div_lt_upper_bound; lia).
    lia.
  - pose proof (Nat.mod_upper_bound
                  ((nat_of_ascii b mod 8) * 4 + (byteAt 0 rest mod 64) / 16 - 1)
                  16).
    lia.
Qed.

(** [substring] gives as many code units as it is asked for, as far as the
    text has them. *)
Lemma length16_substring16 (n : nat) (s : string) :
  length16 (substring16 n s) = Nat.min n (length16 s).
Proof.
  revert n. induction s as [|b s IH]; intros n; cbn [substring16 length16];
    [lia|].
  pose proof (units_le_2 b) as Hb.
  destruct (Nat.eqb_spec (units b) 0) as [E|E].
  - cbn [length16]. rewrite IH. lia.
  - destruct (Nat.leb_spec (units b) n) as [L|L].
    + cbn [length16]. rewrite IH. lia.
    + destruct (Nat.eqb_spec n 0) as [->|N]; [reflexivity|].
      rewrite length16_highSurrogate. lia.
Qed.

Lemma substring16_CutOf (n : nat) (s : string) : CutOf (substring16 n s) s.
Proof.
  revert n. induction s as [|b s IH]; intros n; cbn [substring16].
  - exists EmptyString, EmptyString. split; [reflexivity|].
    split; [discriminate | now left].
  - destruct (Nat.eqb_spec (units b) 0) as [E|E];
      [|destruct (Nat.leb_spec (units b) n) as [L|L]].
    + destruct (IH n) as (kept & hidden & Hs & Hh & Hc).
      exists (String b kept), hidden. split; [simpl; now rewrite <- Hs|].
      split; [exact Hh|].
      destruct Hc as [->|(c & rest & -> & Hu & ->)]; [now left|].
      right. exists c, rest. auto.
    + destruct (IH (n - units b)) as (kept & hidden & Hs & Hh & Hc).
      exists (String b kept), hidden. split; [simpl; now rewrite <- Hs|].
      split; [exact Hh|].
      destruct Hc as [->|(c & rest & -> & Hu & ->)]; [now left|].
      right. exists c, rest. auto.
    + exists EmptyString, (String b s). split; [reflexivity|].
      split; [intros c rest H; injection H as <- _; exact E|].
      destruct (Nat.eqb_spec n 0) as [->|N]; [now left|].
      right. exists b, s. pose proof (units_le_2 b).
      split; [reflexivity|]. split; [lia | reflexivity].
Qed.

(** A read that goes through reports one line more than the file has line
    feeds, so one line for the empty file, and the size of the file in UTF-16
    code units.  Below the header it shows the file from its start: all of it
    when it has at most 5000 code units, and otherwise exactly its first 5000
    code units, which are whole characters of the file and, when the cut
    falls inside a surrogate pair, the high surrogate of the pair, followed
    by the notice that names the full size. *)
Theorem readFile_reports_the_size_and_shows_the_first_5000_code_units
    (env : Tool.Env) (path content : string) :
  Tool.fs_access env (Tool.path_resolve env path) Tool.R_OK = None ->
  Tool.fs_readFile env (Tool.path_resolve env path) = inr content ->
  exists shown notice,
    snd (Tool.readFile env path)
    = "File: " ++ path ++ " ("
      ++ Tool.decimal (S (countChar Tool.lf content)) ++ " lines, "
      ++ Tool.decimal (length16 content) ++ " characters)"
      ++ String Tool.lf (shown ++ notice)
    /\ CutOf shown content
    /\ length16 shown = Nat.min 5000 (length16 content)
    /\ (length16 content <= 5000 ->
        shown = content /\ notice = EmptyString)
    /\ (5000 < length16 content ->
        notice = Tool.truncationNotice (length16 content)).
Proof.
  intros Hacc Hread.
  rewrite (readFile_returns env path content Hacc Hread), split_length.
  destruct (5000 <? length16 content)%nat eqn:Hlen.
  - apply Nat.ltb_lt in Hlen.
    exists (substring16 5000 content),
      (Tool.truncationNotice (length16 content)).
    split; [reflexivity|]. split; [apply substring16_CutOf|].
    split; [apply length16_substring16|].
    split; [lia | reflexivity].
  - apply Nat.ltb_ge in Hlen.
    exists content, EmptyString.
    rewrite !append_nil_r. split; [reflexivity|].
    split.
    { rewrite <- (substring16_all 5000 content Hlen) at 1.
      apply substring16_CutOf. }
    split; [lia|]. split; [auto | lia].
Qed.

Lemma readFile_reports_the_size_and_shows_the_first_5000_code_units_witness :
  Tool.fs_readFile sampleEnv (Tool.path_resolve sampleEnv "accented.ts")
  = inr accentedText
  /\ exists shown notice,
       snd (Tool.readFile sampleEnv "accented.ts")
       = "File: " ++ "accented.ts" ++ " ("
         ++ Tool.decimal (S (countChar Tool.lf accentedText))
         ++ " lines, "
         ++ Tool.decimal (length16 accentedText)
         ++ " characters)"
         ++ String Tool.lf (shown ++ notice)
       /\ CutOf shown accentedText
       /\ length16 shown = Nat.min 5000 (length16 accentedText)
       /\ (length16 accentedText <= 5000 ->
           shown = accentedText /\ notice = EmptyString)
       /\ (5000 < length16 accentedText ->
           notice = Tool.truncationNotice (length16 accentedText)).
Proof.
  split; [reflexivity|].
  exact (readFile_reports_the_size_and_shows_the_first_5000_code_units
           sampleEnv "accented.ts" accentedText eq_refl eq_refl).
Defined.

(** ** The earlier text of the middleware never clears the session *)

Lemma at_last_In {A : Type} (xs : list A) (x : A) :
  at_last xs = Some x -> In x xs.
Proof.
  induction xs as [|y xs IH]; [discriminate|].
  destruct xs as [|z xs].
  - simpl. intros H. injection H as ->. now left.
  - intros H. right. apply IH. exact H.
Qed.

Lemma Occurs_colon_after (before after : string) :
  Occurs ":" (before ++ String ":" after).
Proof. exists before, after. reflexivity. Qed.

Lemma Earlier_afterModel_appends (state : State) (runtime : Runtime) :
  Forall (Occurs ":") (contextHistory state) ->
  exists entry,
    Earlier.afterModel state runtime
    = {| set_currentTask := set_currentTask (Earlier.afterModel state runtime);
         set_contextHistory :=
           Some (List.app (contextHistory state) [entry]) |}
    /\ Occurs ":" entry.
Proof.
  intros Hinv. unfold Earlier.afterModel, afterModel_new_task.
  set (lastToolCall := at_last (toolCalls runtime)).
  set (res := match resultOf lastToolCall with
              | Some r => r
              | None => EmptyString
              end).
  assert (Hlast : match at_last (contextHistory state) with
                  | Some entry => entry =? "attempt_completion"
                  | None => false
                  end = false).
  { destruct (at_last (contextHistory state)) as [entry|] eqn:E;
      [|reflexivity].
    apply not_true_is_false. intros H. apply String.eqb_eq in H. subst entry.
    apply at_last_In in E. rewrite Forall_forall in Hinv.
    apply Hinv in E. apply includes_char in E. discriminate E. }
  rewrite Hlast.
  destruct (nameIs lastToolCall "new_task").
  - destruct (includes res "NEW TASK CONFIRMED:").
    + eexists. split; [reflexivity|].
      apply (Occurs_colon_after "Started task").
    + destruct (includes res "TASK FEEDBACK:");
        [destruct (exec feedbackPattern res)|].
      * eexists. split; [reflexivity|].
        apply (Occurs_colon_after "Task feedback").
      * eexists. split; [reflexivity|].
        destruct (includes res "Error:" || includes res "does not exist");
          apply Occurs_colon_after.
      * eexists. split; [reflexivity|].
        destruct (includes res "Error:" || includes res "does not exist");
          apply Occurs_colon_after.
  - eexists. split; [reflexivity|].
    destruct (includes res "Error:" || includes res "does not exist");
      apply Occurs_colon_after.
Qed.

Lemma Earlier_evolve_grows (outcomes : list ToolCall) :
  forall (state : State) (earlier : list ToolCall),
  Forall (Occurs ":") (contextHistory state) ->
  Forall (Occurs ":") (contextHistory (Earlier.evolve state earlier outcomes))
  /\ List.length (contextHistory (Earlier.evolve state earlier outcomes))
     = List.length (contextHistory state) + List.length outcomes.
Proof.
  induction outcomes as [|call later IH]; intros state earlier Hinv.
  - simpl. split; [exact Hinv | lia].
  - cbn [Earlier.evolve].
    destruct (Earlier_afterModel_appends state (runtimeOf earlier call) Hinv)
      as (entry & E & Hentry).
    assert (Hnext : contextHistory
                      (applyUpdate state
                         (Earlier.afterModel state (runtimeOf earlier call)))
                    = List.app (contextHistory state) [entry]).
    { rewrite E. reflexivity. }
    destruct (IH (applyUpdate state
                    (Earlier.afterModel state (runtimeOf earlier call)))
                 (List.app earlier [call])) as [Hall Hlen].
    + rewrite Hnext. apply Forall_app. split; [exact Hinv|].
      now constructor.
    + split; [exact Hall|]. rewrite Hlen, Hnext, length_app. simpl. lia.
Qed.

(** In the earlier text of the middleware the branch that clears the session
    is dead: it asks for a last entry that reads attempt_completion, and
    every entry [afterModel] writes has a colon in it.  From the empty
    session the history therefore grows by one entry at every step, whatever
    the outcomes are, a satisfied completion included. *)
Theorem earlier_afterModel_never_clears_the_session
    (outcomes earlier : list ToolCall) :
  List.length (contextHistory (Earlier.evolve emptyState earlier outcomes))
  = List.length outcomes
  /\ Forall (Occurs ":")
       (contextHistory (Earlier.evolve emptyState earlier outcomes)).
Proof.
  destruct (Earlier_evolve_grows outcomes emptyState earlier) as [Hall Hlen].
  - constructor.
  - split; [exact Hlen | exact Hall].
Qed.
